(** * ai-toolbox: update check and model-list reconciliation

    A shallow embedding of
    - [src/web/services/appApi.ts] ([compareVersions], [checkForUpdates]) and
    - [src/web/components/common/FetchModelsModal/index.tsx]
      ([filteredModels], [calculatedUrl], the [customUrl] effects,
      [handleFetch], [handleConfirm], [columns], [rowSelection]),
    - [src/web/app/providers.tsx] (the update check at startup, the
      ['config-changed'] listener) with the refresh store, and
    - [OhMyOpenCodeGlobalConfigModal.tsx] ([handleSubmit], the JSON
      editors' [onChange]),
    followed by the properties the specification states about them
    (Part II) and further properties read off the code (Part III).

    JavaScript strings are sequences of UTF-16 code units, numbers are
    IEEE 754 binary64 values (the standard library's [spec_float] at
    precision 53, maximal exponent 1024). *)

From Stdlib Require Import ZArith NArith PArith List Bool Ascii String Lia.
From Stdlib Require Import Floats.SpecFloat.
Import ListNotations.

Set Implicit Arguments.

(* ================================================================= *)
(** * Part I: the program *)
(* ================================================================= *)

(** ** JavaScript strings *)

Module JsString.

(** A code unit; a string is the list of its code units. *)
Definition codeunit := N.
Definition jsstring := list codeunit.

(** [js "abc"] is the JavaScript string literal ['abc'] (ASCII only). *)
Definition js (s : string) : jsstring :=
List.map N_of_ascii (list_ascii_of_string s).

Fixpoint eqb (a b : jsstring) : bool :=
match a, b with
| [], [] => true
| x :: a', y :: b' => N.eqb x y && eqb a' b'
| _, _ => false
end.

(** ToBoolean on a string: only the empty string is falsy. *)
Definition truthy (s : jsstring) : bool :=
match s with [] => false | _ => true end.

(** ToBoolean on an optional string ([undefined] is falsy). *)
Definition truthyOpt (s : option jsstring) : bool :=
match s with None => false | Some v => truthy v end.

(** [s.startsWith(p)]. *)
Fixpoint startsWith (s p : jsstring) : bool :=
match p, s with
| [], _ => true
| x :: p', y :: s' => N.eqb x y && startsWith s' p'
| _ :: _, [] => false
end.

(** [s.includes(q)]: [q] occurs at some position of [s]. *)
Fixpoint includes (s q : jsstring) : bool :=
startsWith s q ||
match s with
| [] => false
| _ :: s' => includes s' q
end.

(** [s.slice(start, end)] with the relative-index rule of the language:
    a negative index counts from the end, and both are clamped to
    [0 .. s.length]. *)
Definition relIndex (len i : Z) : Z :=
if (i <? 0)%Z then Z.max (len + i) 0 else Z.min i len.

Definition slice (s : jsstring) (start stop : Z) : jsstring :=
let len := Z.of_nat (List.length s) in
let from := relIndex len start in
let to := relIndex len stop in
firstn (Z.to_nat (Z.max (to - from) 0)) (skipn (Z.to_nat from) s).

(** [s.endsWith(p)]: the [p.length] code units that end at [s.length]
    are those of [p]. *)
Definition endsWith (s p : jsstring) : bool :=
let len := List.length s in
let plen := List.length p in
if (len <? plen)%nat then false
else eqb (skipn (len - plen) s) p.

(** [s.split(sep)] for a one-unit separator: never empty, the pieces
    between the occurrences of [sep]. *)
Fixpoint split (sep : codeunit) (s : jsstring) : list jsstring :=
match s with
| [] => [[]]
| c :: s' =>
    if N.eqb c sep then [] :: split sep s'
    else match split sep s' with
         | [] => [[c]]
         | piece :: rest => (c :: piece) :: rest
         end
end.

(** [s.replace(/^v/, '')]: drop one leading ['v']. *)
Definition replaceLeadingV (s : jsstring) : jsstring :=
match s with
| 118%N :: s' => s'
| _ => s
end.

(** [s.replace(/\/$/, '')]: drop one ['/'] at the end of the input. *)
Definition replaceTrailingSlash (s : jsstring) : jsstring :=
match rev s with
| 47%N :: r => rev r
| _ => s
end.

(** [arr.includes(x)] on an array of strings. *)
Definition arrayIncludes (arr : list jsstring) (x : jsstring) : bool :=
existsb (fun y => eqb y x) arr.

(** A lower-casing of the ASCII letters only, leaving every other code
    unit alone; it agrees with [String.prototype.toLowerCase] on ASCII
    strings and serves as a concrete instance in examples. *)
Definition asciiLowerUnit (c : codeunit) : codeunit :=
if (65 <=? c)%N && (c <=? 90)%N then (c + 32)%N else c.

Definition asciiLower (s : jsstring) : jsstring := List.map asciiLowerUnit s.

End JsString.

(** ** JavaScript numbers and [Number(string)] *)

Module JsNumber.
Import JsString.

Definition prec : Z := 53.
Definition emax : Z := 1024.

Definition number := spec_float.

Definition NaN : number := S754_nan.
Definition zero : number := S754_zero false.

(** ToBoolean on a number: [+0], [-0] and [NaN] are falsy. *)
Definition truthy (x : number) : bool :=
match x with
| S754_zero _ | S754_nan => false
| _ => true
end.

(** [x < y] and [x > y]; both are false when an operand is [NaN]. *)
Definition lt (x y : number) : bool := SFltb x y.
Definition gt (x y : number) : bool := SFltb y x.

(** The binary64 value nearest to [p / q] (ties to even), with the
    sign [neg]. *)
Definition roundRatio (neg : bool) (p q : positive) : number :=
let '(m, e, l) := SFdiv_core_binary prec emax (Zpos p) 0 (Zpos q) 0 in
binary_round_aux prec emax neg m e l.

(** The binary64 value of [(-1)^neg * m * 10^e]. *)
Definition ofDecimal (neg : bool) (m : N) (e : Z) : number :=
match m with
| N0 => S754_zero neg
| Npos p =>
    match e with
    | Zneg k => roundRatio neg p (10 ^ k)%positive
    | Z0 => roundRatio neg p 1
    | Zpos k => roundRatio neg (p * 10 ^ k)%positive 1
    end
end.

(** StrWhiteSpaceChar: WhiteSpace and LineTerminator. *)
Definition isStrWhiteSpaceChar (c : codeunit) : bool :=
match c with
| 9 | 10 | 11 | 12 | 13 | 32 | 160 => true
| 5760 => true
| 8192 | 8193 | 8194 | 8195 | 8196 | 8197 | 8198 | 8199 | 8200 | 8201 | 8202 => true
| 8232 | 8233 | 8239 | 8287 | 12288 | 65279 => true
| _ => false
end%N.

Fixpoint dropWhile (p : codeunit -> bool) (s : jsstring) : jsstring :=
match s with
| [] => []
| c :: s' => if p c then dropWhile p s' else s
end.

Fixpoint span (p : codeunit -> bool) (s : jsstring) : jsstring * jsstring :=
match s with
| [] => ([], [])
| c :: s' =>
    if p c then let '(a, b) := span p s' in (c :: a, b)
    else ([], s)
end.

Definition trim (s : jsstring) : jsstring :=
rev (dropWhile isStrWhiteSpaceChar (rev (dropWhile isStrWhiteSpaceChar s))).

Definition isDecimalDigit (c : codeunit) : bool := ((48 <=? c) && (c <=? 57))%N.

(** The value of a digit in base 16 (also used for bases 2, 8, 10). *)
Definition digitValue (c : codeunit) : option N :=
if ((48 <=? c) && (c <=? 57))%N then Some (c - 48)%N
else if ((97 <=? c) && (c <=? 102))%N then Some (c - 87)%N
else if ((65 <=? c) && (c <=? 70))%N then Some (c - 55)%N
else None.

(** The integer written by [ds] in [base]; [None] when [ds] is empty or
    holds a code unit that is not a digit of that base. *)
Fixpoint digitsFrom (base acc : N) (ds : jsstring) : option N :=
match ds with
| [] => Some acc
| c :: ds' =>
    match digitValue c with
    | Some d => if (d <? base)%N then digitsFrom base (acc * base + d)%N ds' else None
    | None => None
    end
end.

Definition digits (base : N) (ds : jsstring) : option N :=
match ds with
| [] => None
| _ => digitsFrom base 0%N ds
end.

(** ExponentPart (optional): [e] or [E], an optional sign, digits. *)
Definition exponentPart (s : jsstring) : option Z :=
match s with
| [] => Some 0%Z
| (101 | 69)%N :: r =>
    match r with
    | 43%N :: ds => option_map Z.of_N (digits 10 ds)
    | 45%N :: ds => option_map (fun n => Z.opp (Z.of_N n)) (digits 10 ds)
    | ds => option_map Z.of_N (digits 10 ds)
    end
| _ => None
end.

(** StrUnsignedDecimalLiteral, with the sign already read. *)
Definition unsignedDecimal (neg : bool) (s : jsstring) : number :=
if JsString.eqb s (js "Infinity") then S754_infinity neg
else
  let '(ip, r1) := span isDecimalDigit s in
  let '(fp, r2) :=
    match r1 with
    | 46%N :: r => span isDecimalDigit r
    | _ => ([], r1)
    end in
  match ip ++ fp with
  | [] => NaN
  | ds =>
      match digitsFrom 10 0%N ds, exponentPart r2 with
      | Some m, Some e => ofDecimal neg m (e - Z.of_nat (List.length fp))
      | _, _ => NaN
      end
  end.

Definition nonDecimal (base : N) (ds : jsstring) : number :=
match digits base ds with
| Some n => ofDecimal false n 0
| None => NaN
end.

(** StringToNumber: the value of [Number(s)] for a string [s]. *)
Definition Number (s : jsstring) : number :=
match trim s with
| [] => zero
| 48%N :: (120 | 88)%N :: ds => nonDecimal 16 ds
| 48%N :: (111 | 79)%N :: ds => nonDecimal 8 ds
| 48%N :: (98 | 66)%N :: ds => nonDecimal 2 ds
| 43%N :: r => unsignedDecimal false r
| 45%N :: r => unsignedDecimal true r
| r => unsignedDecimal false r
end.

End JsNumber.

(** ** [src/web/services/appApi.ts] *)

Module AppApi.
Import JsString JsNumber.

(** [parts[i] || 0]: an index past the end reads [undefined]. *)
Definition orZero (x : option number) : number :=
match x with
| None => zero
| Some v => if JsNumber.truthy v then v else zero
end.

(** The [for] loop of [compareVersions], entered at index [i] with
    [remaining = maxLength - i] iterations to go. *)
Fixpoint compareLoop (parts1 parts2 : list number) (i remaining : nat) : Z :=
match remaining with
| O => 0
| S remaining' =>
    let num1 := orZero (nth_error parts1 i) in
    let num2 := orZero (nth_error parts2 i) in
    if gt num1 num2 then 1
    else if lt num1 num2 then (-1)
    else compareLoop parts1 parts2 (S i) remaining'
end%Z.

Definition compareVersions (v1 v2 : jsstring) : Z :=
let parts1 := List.map Number (split 46%N v1) in
let parts2 := List.map Number (split 46%N v2) in
let maxLength := Nat.max (List.length parts1) (List.length parts2) in
compareLoop parts1 parts2 0 maxLength.

(** A thrown value: an [Error] object with its message, or any other
    value (held as the text [String(value)] gives). *)
Inductive exn :=
| ErrorObject (message : jsstring)
| OtherValue (text : jsstring).

(** The calls [checkForUpdates] makes to its environment. *)
Inductive request :=
| GetVersion
| Fetch (url : jsstring)
| ReadJson.

(** An asynchronous computation: it extends the log of requests issued
    so far and settles with a value or rejects with a thrown value. *)
Definition Async (A : Type) : Type := list request -> (exn + A) * list request.

Definition ret {A} (a : A) : Async A := fun log => (inr a, log).

Definition throw {A} (e : exn) : Async A := fun log => (inl e, log).

Definition bind {A B} (m : Async A) (k : A -> Async B) : Async B :=
fun log =>
  match m log with
  | (inl e, log') => (inl e, log')
  | (inr a, log') => k a log'
  end.

Notation "x <- m ;; k" := (bind m (fun x => k))
  (at level 61, m at next level, right associativity).

(** [await p] for an environment call [r] whose outcome is [p]. *)
Definition await {A} (r : request) (p : exn + A) : Async A :=
fun log => (p, log ++ [r]).

Definition run {A} (m : Async A) : (exn + A) * list request := m [].

Definition GITHUB_REPO : jsstring := js "coulsontl/ai-toolbox".
Definition GITHUB_URL : jsstring := js "https://github.com/" ++ GITHUB_REPO.
Definition LATEST_JSON_URL : jsstring :=
js "https://github.com/" ++ GITHUB_REPO ++ js "/releases/latest/download/latest.json".

Record UpdateInfo := {
  hasUpdate : bool;
  currentVersion : jsstring;
  latestVersion : jsstring;
  releaseUrl : jsstring;
  releaseNotes : jsstring
}.

(** The parsed [latest.json]; a field the document lacks is [None]. *)
Record LatestRelease := {
  version : option jsstring;
  notes : option jsstring;
  pub_date : option jsstring
}.

(** What [fetch] resolves to: the status flag and text, and what
    [response.json()] settles with. *)
Record Response := {
  ok : bool;
  statusText : jsstring;
  json : exn + LatestRelease
}.

(** The environment of one call: the outcome of [getVersion()] and of
    [fetch(url)]. *)
Record World := {
  getVersion : exn + jsstring;
  fetch : jsstring -> exn + Response
}.

(** [release.version?.replace(/^v/, '') || ''] *)
Definition latestVersionOf (release : LatestRelease) : jsstring :=
match version release with
| None => []
| Some v => replaceLeadingV v
end.

(** [x || ''] on an optional string. *)
Definition orEmpty (x : option jsstring) : jsstring :=
match x with
| None => []
| Some v => v
end.

Definition checkForUpdates (w : World) : Async UpdateInfo :=
currentVersion <- await GetVersion (getVersion w) ;;
response <- await (Fetch LATEST_JSON_URL) (fetch w LATEST_JSON_URL) ;;
if negb (ok response) then
  throw (ErrorObject (js "Failed to fetch latest.json: " ++ statusText response))
else
  release <- await ReadJson (json response) ;;
  let latestVersion := latestVersionOf release in
  ret {| hasUpdate := (0 <? compareVersions latestVersion currentVersion)%Z;
         currentVersion := currentVersion;
         latestVersion := latestVersion;
         releaseUrl := GITHUB_URL ++ js "/releases/tag/v" ++ latestVersion;
         releaseNotes := orEmpty (notes release) |}.

(** *** The specification's reading of the comparison *)

(** The version triple of the data model: the string split on ['.'],
    each segment parsed as a number, a non-numeric segment counting
    as 0. *)
Definition spec_versionTriple (v : jsstring) : list number :=
List.map (fun seg => let n := Number seg in if JsNumber.truthy n then n else zero)
         (split 46%N v).

(** Missing trailing segments count as 0. *)
Definition spec_pad (n : nat) (l : list number) : list number :=
l ++ repeat zero (n - List.length l).

(** The first position where two sequences of the same length differ
    decides: 1 when the left one is greater there, -1 when lesser,
    0 when there is none. *)
Fixpoint spec_firstDifference (l1 l2 : list number) : Z :=
match l1, l2 with
| x :: l1', y :: l2' =>
    if gt x y then 1
    else if lt x y then (-1)
    else spec_firstDifference l1' l2'
| _, _ => 0
end%Z.

Definition spec_compareVersions (v1 v2 : jsstring) : Z :=
let t1 := spec_versionTriple v1 in
let t2 := spec_versionTriple v2 in
let n := Nat.max (List.length t1) (List.length t2) in
spec_firstDifference (spec_pad n t1) (spec_pad n t2).

(** Segment [i] of a triple, 0 past its end. *)
Definition segment (t : list number) (i : nat) : number := nth i t zero.

(** [t1] is greater than [t2] segment by segment: they agree up to some
    position, where [t1] holds the greater number. *)
Definition spec_greater (t1 t2 : list number) : Prop :=
exists i,
  (forall j, (j < i)%nat ->
     gt (segment t1 j) (segment t2 j) = false /\
     lt (segment t1 j) (segment t2 j) = false) /\
  gt (segment t1 i) (segment t2 i) = true.

End AppApi.


(** ** [src/web/components/common/FetchModelsModal/index.tsx] *)

Module FetchModelsModal.
Import JsString JsNumber AppApi.

(** [types.ts] *)
Inductive ApiType := native | openai_compat.

Record FetchedModel := {
  id : jsstring;
  name : option jsstring;
  ownedBy : option jsstring;
  created : option number
}.

Record FetchModelsResponse := {
  response_models : list FetchedModel;
  total : number
}.

(** The props the component reads ([providerName], [headers] and the
    two callbacks play no part in the state). *)
Record Props := {
  open : bool;
  baseUrl : jsstring;
  apiKey : option jsstring;
  sdkType : option jsstring;
  existingModelIds : list jsstring
}.

(** The [useState] cells. *)
Record State := {
  loading : bool;
  apiType : ApiType;
  models : list FetchedModel;
  selectedRowKeys : list jsstring;
  error : option jsstring;
  fetched : bool;
  customUrl : jsstring;
  searchText : jsstring
}.

Definition sdk_google : jsstring := js "@ai-sdk/google".
Definition sdk_anthropic : jsstring := js "@ai-sdk/anthropic".

(** [sdkType === lit] *)
Definition sdkIs (sdkType : option jsstring) (lit : jsstring) : bool :=
match sdkType with
| None => false
| Some s => JsString.eqb s lit
end.

(** *** [filteredModels] *)

Section Search.

(** [String.prototype.toLowerCase], whose Unicode case tables are not
    part of the repository. *)
Variable toLowerCase : jsstring -> jsstring.

(** [f && f.toLowerCase().includes(lowerSearch)] for an optional field,
    coerced to a boolean as [filter] does. *)
Definition fieldMatches (f : option jsstring) (lowerSearch : jsstring) : bool :=
match f with
| None => false
| Some v => JsString.truthy v && includes (toLowerCase v) lowerSearch
end.

Definition filteredModels (models : list FetchedModel) (searchText : jsstring)
  : list FetchedModel :=
if negb (JsString.truthy searchText) then models
else
  let lowerSearch := toLowerCase searchText in
  filter (fun m =>
            includes (toLowerCase (id m)) lowerSearch
            || fieldMatches (name m) lowerSearch
            || fieldMatches (ownedBy m) lowerSearch)
         models.

(** The specification's reading: [field] contains [query] as a
    substring once both are lower-cased. *)
Definition spec_containsCI (field query : jsstring) : Prop :=
exists before after,
  toLowerCase field = before ++ toLowerCase query ++ after.

(** The fields of a model the search looks at: [id], and [name] and
    [ownedBy] when present. *)
Definition spec_searchFields (m : FetchedModel) : list jsstring :=
[id m]
++ match name m with Some n => [n] | None => [] end
++ match ownedBy m with Some o => [o] | None => [] end.

Definition spec_matches (query : jsstring) (m : FetchedModel) : Prop :=
exists field, In field (spec_searchFields m) /\ spec_containsCI field query.

(** The same test as a boolean, by searching each field. *)
Definition spec_matchesb (query : jsstring) (m : FetchedModel) : bool :=
existsb (fun field => includes (toLowerCase field) (toLowerCase query))
        (spec_searchFields m).

End Search.

(** *** [calculatedUrl] *)

Definition calculatedUrl (baseUrl : jsstring) (apiType : ApiType)
  (sdkType apiKey : option jsstring) : jsstring :=
let base := replaceTrailingSlash baseUrl in
let baseStripped :=
  if endsWith base (js "/v1beta")
  then slice base 0 (- Z.of_nat (List.length (js "/v1beta")))
  else if endsWith base (js "/v1")
       then slice base 0 (- Z.of_nat (List.length (js "/v1")))
       else base in
match apiType with
| native =>
    if sdkIs sdkType sdk_google then
      let url := baseStripped ++ js "/v1beta/models" in
      match apiKey with
      | Some k => if JsString.truthy k then url ++ js "?key=" ++ k else url
      | None => url
      end
    else if sdkIs sdkType sdk_anthropic then
      baseStripped ++ js "/v1/models"
    else
      baseStripped ++ js "/v1/models"
| openai_compat => baseStripped ++ js "/v1/models"
end.

(** The claim's wording of the same URL: the base with a trailing
    ['/v1'] or ['/v1beta'] removed, then the path of the policy table,
    the key being appended whenever one is given. *)
Definition spec_stripVersionSuffix (baseUrl : jsstring) : jsstring :=
if endsWith baseUrl (js "/v1beta")
then firstn (List.length baseUrl - List.length (js "/v1beta")) baseUrl
else if endsWith baseUrl (js "/v1")
     then firstn (List.length baseUrl - List.length (js "/v1")) baseUrl
     else baseUrl.

Definition spec_pathOf (apiType : ApiType) (sdkType : option jsstring) : jsstring :=
match apiType with
| openai_compat => js "/v1/models"
| native => if sdkIs sdkType sdk_google then js "/v1beta/models" else js "/v1/models"
end.

Definition spec_buildFetchUrl (baseUrl : jsstring) (apiType : ApiType)
  (sdkType apiKey : option jsstring) : jsstring :=
spec_stripVersionSuffix baseUrl ++ spec_pathOf apiType sdkType
++ match apiType, sdkIs sdkType sdk_google, apiKey with
   | native, true, Some k => js "?key=" ++ k
   | _, _, _ => []
   end.

(** The amended wording: one trailing ['/'] goes first, and only a
    non-empty key is appended. *)
Definition spec_dropSlash (baseUrl : jsstring) : jsstring :=
if endsWith baseUrl (js "/")
then firstn (List.length baseUrl - 1) baseUrl
else baseUrl.

Definition spec_buildFetchUrl_amended (baseUrl : jsstring) (apiType : ApiType)
  (sdkType apiKey : option jsstring) : jsstring :=
spec_stripVersionSuffix (spec_dropSlash baseUrl) ++ spec_pathOf apiType sdkType
++ match apiType, sdkIs sdkType sdk_google, apiKey with
   | native, true, Some (c :: k) => js "?key=" ++ c :: k
   | _, _, _ => []
   end.

(** *** The component as a state machine *)

(** The first render: the [useState] initialisers. *)
Definition initialState (p : Props) : State :=
{| loading := false;
   apiType := if sdkIs (sdkType p) sdk_google || sdkIs (sdkType p) sdk_anthropic
              then native else openai_compat;
   models := [];
   selectedRowKeys := [];
   error := None;
   fetched := false;
   customUrl := [];
   searchText := [] |}.

Definition calculatedUrlOf (p : Props) (s : State) : jsstring :=
calculatedUrl (baseUrl p) (apiType s) (sdkType p) (apiKey p).

Definition setCustomUrl (u : jsstring) (s : State) : State :=
{| loading := loading s; apiType := apiType s; models := models s;
   selectedRowKeys := selectedRowKeys s; error := error s;
   fetched := fetched s; customUrl := u; searchText := searchText s |}.

(** The first effect, dependencies [[calculatedUrl]]. *)
Definition effect_syncUrl (p : Props) (s : State) : State :=
setCustomUrl (calculatedUrlOf p s) s.

(** The second effect, dependencies [[open, calculatedUrl]]. *)
Definition effect_resetOnOpen (p : Props) (s : State) : State :=
if open p then
  {| loading := loading s; apiType := apiType s;
     models := [];
     selectedRowKeys := [];
     error := None;
     fetched := false;
     customUrl := calculatedUrlOf p s;
     searchText := [] |}
else s.

(** After a render React runs, in order, the effects one of whose
    dependencies differs from its value at the previous render
    ([prevUrl], [prevOpen]); on the first render it runs them all. *)
Definition runEffects (prev : option (jsstring * bool)) (p : Props) (s : State) : State :=
let url := calculatedUrlOf p s in
let urlChanged :=
  match prev with None => true | Some (u, _) => negb (JsString.eqb u url) end in
let openChanged :=
  match prev with None => true | Some (_, o) => negb (Bool.eqb o (open p)) end in
let s1 := if urlChanged then effect_syncUrl p s else s in
if openChanged || urlChanged then effect_resetOnOpen p s1 else s1.

Record Component := { props : Props; state : State }.

Definition mount (p : Props) : Component :=
{| props := p; state := runEffects None p (initialState p) |}.

(** The two halves of [handleFetch], before and after the [await]. *)
Definition handleFetch_begin (s : State) : State :=
{| loading := true; apiType := apiType s; models := models s;
   selectedRowKeys := selectedRowKeys s; error := None;
   fetched := fetched s; customUrl := customUrl s; searchText := searchText s |}.

(** [err instanceof Error ? err.message : String(err)] *)
Definition errorMsg (err : exn) : jsstring :=
match err with
| ErrorObject message => message
| OtherValue text => text
end.

Definition handleFetch_settle (outcome : exn + FetchModelsResponse) (s : State) : State :=
match outcome with
| inr response =>
    {| loading := false; apiType := apiType s;
       models := response_models response;
       selectedRowKeys := [];
       error := error s;
       fetched := true;
       customUrl := customUrl s; searchText := searchText s |}
| inl err =>
    {| loading := false; apiType := apiType s; models := models s;
       selectedRowKeys := selectedRowKeys s;
       error := Some (errorMsg err);
       fetched := fetched s; customUrl := customUrl s; searchText := searchText s |}
end.

(** One whole [handleFetch] with nothing else happening meanwhile. *)
Definition handleFetch (outcome : exn + FetchModelsResponse) (s : State) : State :=
handleFetch_settle outcome (handleFetch_begin s).

(** The argument [handleConfirm] passes to [onSuccess]. *)
Definition handleConfirm (s : State) : list FetchedModel :=
filter (fun m => arrayIncludes (selectedRowKeys s) (id m)) (models s).

(** What can happen to a mounted component. *)
Inductive Event :=
| ParentRenders (p : Props)
| ChangeApiType (t : ApiType)
| EditUrl (u : jsstring)
| ClickReset
| ChangeSearch (q : jsstring)
| ChangeSelection (keys : list jsstring)
| CloseError
| FetchBegins
| FetchSettles (outcome : exn + FetchModelsResponse).

Definition handle (e : Event) (c : Component) : Component :=
let p := props c in
let s := state c in
match e with
| ParentRenders p' => {| props := p'; state := s |}
| ChangeApiType t =>
    {| props := p;
       state := {| loading := loading s; apiType := t; models := models s;
                   selectedRowKeys := selectedRowKeys s; error := error s;
                   fetched := fetched s; customUrl := customUrl s;
                   searchText := searchText s |} |}
| EditUrl u => {| props := p; state := setCustomUrl u s |}
| ClickReset => {| props := p; state := setCustomUrl (calculatedUrlOf p s) s |}
| ChangeSearch q =>
    {| props := p;
       state := {| loading := loading s; apiType := apiType s; models := models s;
                   selectedRowKeys := selectedRowKeys s; error := error s;
                   fetched := fetched s; customUrl := customUrl s;
                   searchText := q |} |}
| ChangeSelection keys =>
    {| props := p;
       state := {| loading := loading s; apiType := apiType s; models := models s;
                   selectedRowKeys := keys; error := error s;
                   fetched := fetched s; customUrl := customUrl s;
                   searchText := searchText s |} |}
| CloseError =>
    {| props := p;
       state := {| loading := loading s; apiType := apiType s; models := models s;
                   selectedRowKeys := selectedRowKeys s; error := None;
                   fetched := fetched s; customUrl := customUrl s;
                   searchText := searchText s |} |}
| FetchBegins => {| props := p; state := handleFetch_begin s |}
| FetchSettles outcome => {| props := p; state := handleFetch_settle outcome s |}
end.

(** An event is handled, the component renders again, and the effects
    compare their dependencies with those of the render before. *)
Definition step (c : Component) (e : Event) : Component :=
let c' := handle e c in
{| props := props c';
   state := runEffects (Some (calculatedUrlOf (props c) (state c), open (props c)))
                       (props c') (state c') |}.

Definition steps (c : Component) (es : list Event) : Component :=
fold_left step es c.

(** *** The table *)

(** What the table shows for one record: the [render] of the id column
    decides the "already exists" mark, [getCheckboxProps] whether the
    row can be selected. *)
Record Row := {
  record : FetchedModel;
  isExisting : bool;
  checkboxDisabled : bool
}.

Definition render_isExisting (existingModelIds : list jsstring) (rowId : jsstring) : bool :=
arrayIncludes existingModelIds rowId.

Definition getCheckboxProps_disabled (existingModelIds : list jsstring)
  (r : FetchedModel) : bool :=
arrayIncludes existingModelIds (id r).

(** The table calls both once per element of [dataSource], in order. *)
Definition tableRows (existingModelIds : list jsstring) (dataSource : list FetchedModel)
  : list Row :=
List.map (fun m => {| record := m;
                      isExisting := render_isExisting existingModelIds (id m);
                      checkboxDisabled := getCheckboxProps_disabled existingModelIds m |})
         dataSource.

End FetchModelsModal.

(** ** Concrete inputs used in the examples *)

Module Examples.
Import JsString JsNumber AppApi FetchModelsModal.

(** The remote descriptor announces ["v2.0.0"], the app runs ["1.9.9"]. *)
Definition release_2_0_0 : LatestRelease :=
{| version := Some (js "v2.0.0");
   notes := Some (js "Bug fixes");
   pub_date := Some (js "2025-01-01T00:00:00Z") |}.

Definition world_update : World :=
{| getVersion := inr (js "1.9.9");
   fetch := fun _ => inr {| ok := true; statusText := js "OK";
                            json := inr release_2_0_0 |} |}.

(** The server answers 404. *)
Definition response_404 : Response :=
{| ok := false; statusText := js "Not Found";
   json := inl (ErrorObject (js "Unexpected token")) |}.

Definition world_404 : World :=
{| getVersion := inr (js "1.9.9");
   fetch := fun _ => inr response_404 |}.

(** A model list as a provider returns it, and a query. *)
Definition gpt4 : FetchedModel :=
{| id := js "gpt-4"; name := None; ownedBy := Some (js "OpenAI"); created := None |}.

Definition gpt5 : FetchedModel :=
{| id := js "gpt-5"; name := Some (js "GPT-5"); ownedBy := None; created := None |}.

(** The modal is open on a Google-style provider without a key. *)
Definition props_google : Props :=
{| open := true;
   baseUrl := js "https://api.x.com";
   apiKey := None;
   sdkType := Some sdk_google;
   existingModelIds := [js "gpt-4"] |}.

Definition user_url : jsstring := js "https://proxy.local/models".

(** A state after a successful fetch, with both models selected in the
    order the user clicked them (last row first) and a search that
    hides [gpt5]. *)
Definition state_selected : State :=
{| loading := false; apiType := native;
   models := [gpt4; gpt5];
   selectedRowKeys := [js "gpt-5"; js "gpt-4"];
   error := None; fetched := true;
   customUrl := js "https://api.x.com/v1beta/models";
   searchText := js "openai" |}.

End Examples.

(** ** The refresh store ([useRefreshStore]) and [src/web/app/providers.tsx] *)

Module Providers.
Import JsString JsNumber AppApi.

(** The two counters of the store. Each holds a non-negative integer
    that only [+ 1] changes, so it stays within the integers a number
    holds exactly, 0 to 2^53. *)
Record RefreshState := {
  omoConfigRefreshKey : Z;
  claudeProviderRefreshKey : Z
}.

Definition initialRefreshState : RefreshState :=
{| omoConfigRefreshKey := 0; claudeProviderRefreshKey := 0 |}.

(** [x + 1] on such a number: exact below 2^53, where [2^53 + 1]
    rounds back to [2^53]. *)
Definition plusOne (x : Z) : Z :=
if (x <? 2 ^ 53)%Z then (x + 1)%Z else x.

Definition incrementOmoConfigRefresh (s : RefreshState) : RefreshState :=
{| omoConfigRefreshKey := plusOne (omoConfigRefreshKey s);
   claudeProviderRefreshKey := claudeProviderRefreshKey s |}.

Definition incrementClaudeProviderRefresh (s : RefreshState) : RefreshState :=
{| omoConfigRefreshKey := omoConfigRefreshKey s;
   claudeProviderRefreshKey := plusOne (claudeProviderRefreshKey s) |}.

(** The listener on ['config-changed']: [payload] is the event's
    [configType]. *)
Definition onConfigChanged (s : RefreshState) (payload : jsstring) : RefreshState :=
if JsString.eqb payload (js "oh-my-opencode") then incrementOmoConfigRefresh s
else if JsString.eqb payload (js "claude-code") then incrementClaudeProviderRefresh s
else s.

(** The store after a run of events. *)
Definition onConfigChanges (s : RefreshState) (payloads : list jsstring) : RefreshState :=
fold_left onConfigChanged payloads s.

(** How many of the payloads are [kind]. *)
Definition occurrences (kind : jsstring) (payloads : list jsstring) : Z :=
Z.of_nat (List.length (filter (fun p => JsString.eqb p kind) payloads)).

(** What [checkUpdate] shows: the notification, with the version it
    announces and the URL its link opens, or the console line. *)
Inductive uiEffect :=
| NotificationInfo (version : jsstring) (link : jsstring)
| ConsoleError (label : jsstring) (error : exn).

(** [try { m } catch (e) { h(e) }] *)
Definition tryCatch {A} (m : Async A) (h : exn -> Async A) : Async A :=
fun log =>
  match m log with
  | (inl e, log') => h e log'
  | (inr a, log') => (inr a, log')
  end.

Definition checkUpdate (w : World) : Async (list uiEffect) :=
tryCatch
  (info <- checkForUpdates w ;;
   if hasUpdate info
   then ret [NotificationInfo (latestVersion info) (releaseUrl info)]
   else ret [])
  (fun error => ret [ConsoleError (js "Auto check update failed:") error]).

(** The effect that runs it: nothing before the app is initialised. *)
Definition updateCheckEffect (appInitialized : bool) (w : World) : Async (list uiEffect) :=
if negb appInitialized then ret [] else checkUpdate w.

End Providers.

(** ** [src/web/features/coding/opencode/components/OhMyOpenCodeGlobalConfigModal.tsx] *)

Module OhMyOpenCodeGlobalConfigModal.
Import JsString JsNumber.

Definition DEFAULT_SCHEMA : jsstring :=
js "https://raw.githubusercontent.com/code-yeongyu/oh-my-opencode/master/assets/oh-my-opencode.schema.json".

(** A value as a JSON editor hands it over. *)
#[local] Unset Elimination Schemes.
Inductive jsval :=
| VUndefined
| VNull
| VBoolean (b : bool)
| VNumber (n : number)
| VString (s : jsstring)
| VArray (items : list jsval)
| VObject (fields : list (jsstring * jsval)).
#[local] Set Elimination Schemes.

(** [typeof value === 'object' && value !== null] *)
Definition isObjectValue (value : jsval) : bool :=
match value with
| VArray _ | VObject _ => true
| _ => false
end.

(** The values of the form; a field nothing was stored in is [None]. *)
Record SisyphusFields := {
  disabled : option bool;
  default_builder_enabled : option bool;
  planner_enabled : option bool;
  replace_plan : option bool
}.

Record FormStore := {
  schema : option jsstring;
  sisyphusAgent : option SisyphusFields;
  disabledAgents : option (list jsstring);
  disabledMcps : option (list jsstring);
  disabledHooks : option (list jsstring);
  lsp : option jsval;
  experimental : option jsval;
  otherFields : option jsval
}.

Definition emptyStore : FormStore :=
{| schema := None; sisyphusAgent := None; disabledAgents := None;
   disabledMcps := None; disabledHooks := None;
   lsp := None; experimental := None; otherFields := None |}.

(** What [onSuccess] receives. *)
Record SisyphusConfig := {
  cfg_disabled : bool;
  cfg_default_builder_enabled : bool;
  cfg_planner_enabled : bool;
  cfg_replace_plan : bool
}.

Record FormValues := {
  out_schema : jsstring;
  out_sisyphusAgent : SisyphusConfig;
  out_disabledAgents : list jsstring;
  out_disabledMcps : list jsstring;
  out_disabledHooks : list jsstring;
  out_lsp : option jsval;
  out_experimental : option jsval;
  out_otherFields : option jsval
}.

(** [!!x] on a switch value. *)
Definition toBoolean (x : option bool) : bool :=
match x with
| Some b => b
| None => false
end.

(** [x || DEFAULT_SCHEMA] *)
Definition orDefaultSchema (x : option jsstring) : jsstring :=
match x with
| Some v => if JsString.truthy v then v else DEFAULT_SCHEMA
| None => DEFAULT_SCHEMA
end.

(** [x || []]; an array, empty or not, is truthy. *)
Definition orEmptyArray (x : option (list jsstring)) : list jsstring :=
match x with
| Some l => l
| None => []
end.

(** The body of [handleSubmit] from [form.getFieldsValue(true) || {}]
    to the object passed to [onSuccess]. *)
Definition submittedValues (fieldsValue : option FormStore) : FormValues :=
let allValues := match fieldsValue with Some v => v | None => emptyStore end in
let sisyphusAgentFromForm :=
  match sisyphusAgent allValues with
  | Some a => a
  | None => {| disabled := None; default_builder_enabled := None;
               planner_enabled := None; replace_plan := None |}
  end in
let sisyphus :=
  {| cfg_disabled := toBoolean (disabled sisyphusAgentFromForm);
     cfg_default_builder_enabled := toBoolean (default_builder_enabled sisyphusAgentFromForm);
     cfg_planner_enabled := toBoolean (planner_enabled sisyphusAgentFromForm);
     cfg_replace_plan := toBoolean (replace_plan sisyphusAgentFromForm) |} in
{| out_schema := orDefaultSchema (schema allValues);
   out_sisyphusAgent := sisyphus;
   out_disabledAgents := orEmptyArray (disabledAgents allValues);
   out_disabledMcps := orEmptyArray (disabledMcps allValues);
   out_disabledHooks := orEmptyArray (disabledHooks allValues);
   out_lsp := lsp allValues;
   out_experimental := experimental allValues;
   out_otherFields := otherFields allValues |}.

(** The component: [loading], the three validity refs, the form. *)
Record Modal := {
  loading : bool;
  lspJsonValid : bool;
  experimentalJsonValid : bool;
  otherFieldsValid : bool;
  form : FormStore
}.

(** [handleSubmit]: the argument of [onSuccess] when it is called, and
    the component afterwards ([finally] clears [loading]; a successful
    submit ends with [form.resetFields()]). *)
Definition handleSubmit (c : Modal) : option FormValues * Modal :=
if negb (lspJsonValid c) || negb (experimentalJsonValid c) || negb (otherFieldsValid c)
then (None,
      {| loading := false; lspJsonValid := lspJsonValid c;
         experimentalJsonValid := experimentalJsonValid c;
         otherFieldsValid := otherFieldsValid c; form := form c |})
else (Some (submittedValues (Some (form c))),
      {| loading := false; lspJsonValid := lspJsonValid c;
         experimentalJsonValid := experimentalJsonValid c;
         otherFieldsValid := otherFieldsValid c; form := emptyStore |}).

(** [form.setFieldValue(name, x)] for the three JSON fields; a field
    holding [undefined] reads as a field nothing was stored in. *)
Definition fieldOf (value : jsval) : option jsval :=
match value with
| VUndefined => None
| _ => Some value
end.

Definition setLsp (x : option jsval) (f : FormStore) : FormStore :=
{| schema := schema f; sisyphusAgent := sisyphusAgent f;
   disabledAgents := disabledAgents f; disabledMcps := disabledMcps f;
   disabledHooks := disabledHooks f;
   lsp := x; experimental := experimental f; otherFields := otherFields f |}.

Definition setExperimental (x : option jsval) (f : FormStore) : FormStore :=
{| schema := schema f; sisyphusAgent := sisyphusAgent f;
   disabledAgents := disabledAgents f; disabledMcps := disabledMcps f;
   disabledHooks := disabledHooks f;
   lsp := lsp f; experimental := x; otherFields := otherFields f |}.

Definition setOtherFields (x : option jsval) (f : FormStore) : FormStore :=
{| schema := schema f; sisyphusAgent := sisyphusAgent f;
   disabledAgents := disabledAgents f; disabledMcps := disabledMcps f;
   disabledHooks := disabledHooks f;
   lsp := lsp f; experimental := experimental f; otherFields := x |}.

(** [obj[key]] on a parsed object; of two equal keys the later one
    counts. *)
Fixpoint lookupField (key : jsstring) (fields : list (jsstring * jsval)) : option jsval :=
match fields with
| [] => None
| (k, v) :: rest =>
    match lookupField key rest with
    | Some x => Some x
    | None => if JsString.eqb k key then Some v else None
    end
end.

(** Each editor is the child of a [<Form.Item name=...>], and the form
    library wraps the child's [onChange]: it first stores what it takes
    to be the new value of the field, then calls the handler written
    in the source. The new value is the first argument, unless that
    has the shape of a DOM event (an object whose [target] is an object
    with a [value]), when it is [target.value]. *)
Definition defaultGetValueFromEvent (event : jsval) : jsval :=
match event with
| VObject fields =>
    match lookupField (js "target") fields with
    | Some (VObject targetFields) =>
        match lookupField (js "value") targetFields with
        | Some x => x
        | None => event
        end
    | _ => event
    end
| _ => event
end.

Definition formItemStores (set : option jsval -> FormStore -> FormStore)
  (value : jsval) (c : Modal) : Modal :=
{| loading := loading c;
   lspJsonValid := lspJsonValid c;
   experimentalJsonValid := experimentalJsonValid c;
   otherFieldsValid := otherFieldsValid c;
   form := set (fieldOf (defaultGetValueFromEvent value)) (form c) |}.

(** The handler of the LSP editor as the source writes it. *)
Definition lspHandler (value : jsval) (isValid : bool) (c : Modal) : Modal :=
{| loading := loading c;
   lspJsonValid := isValid;
   experimentalJsonValid := experimentalJsonValid c;
   otherFieldsValid := otherFieldsValid c;
   form := if isValid && isObjectValue value
           then setLsp (fieldOf value) (form c)
           else form c |}.

Definition experimentalHandler (value : jsval) (isValid : bool) (c : Modal) : Modal :=
{| loading := loading c;
   lspJsonValid := lspJsonValid c;
   experimentalJsonValid := isValid;
   otherFieldsValid := otherFieldsValid c;
   form := if isValid && isObjectValue value
           then setExperimental (fieldOf value) (form c)
           else form c |}.

Definition otherFieldsHandler (value : jsval) (isValid : bool) (c : Modal) : Modal :=
{| loading := loading c;
   lspJsonValid := lspJsonValid c;
   experimentalJsonValid := experimentalJsonValid c;
   otherFieldsValid := isValid;
   form := if isValid && isObjectValue value
           then setOtherFields (fieldOf value) (form c)
           else form c |}.

(** One [onChange(value, isValid)] of an editor: the store of the
    form item, then the handler. *)
Definition onLspChange (c : Modal) (edit : jsval * bool) : Modal :=
let '(value, isValid) := edit in
lspHandler value isValid (formItemStores setLsp value c).

Definition onExperimentalChange (c : Modal) (edit : jsval * bool) : Modal :=
let '(value, isValid) := edit in
experimentalHandler value isValid (formItemStores setExperimental value c).

Definition onOtherFieldsChange (c : Modal) (edit : jsval * bool) : Modal :=
let '(value, isValid) := edit in
otherFieldsHandler value isValid (formItemStores setOtherFields value c).

(** An [onChange] argument the form item stores as it is: a valid
    object or array (the handler stores it again, whole), or any value
    that does not have the shape of a DOM event. *)
Definition storedAsIs (edit : jsval * bool) : Prop :=
snd edit && isObjectValue (fst edit) = true
\/ defaultGetValueFromEvent (fst edit) = fst edit.

End OhMyOpenCodeGlobalConfigModal.

(** ** Traces of the fetch-models component *)

Module Traces.
Import JsString AppApi FetchModelsModal.

(** The events that write neither the props, nor [apiType], nor the
    URL field. *)
Definition isLocal (e : Event) : bool :=
match e with
| ChangeSearch _ | ChangeSelection _ | CloseError | FetchBegins | FetchSettles _ => true
| ParentRenders _ | ChangeApiType _ | EditUrl _ | ClickReset => false
end.

Definition isEditUrl (e : Event) : bool :=
match e with
| EditUrl _ => true
| _ => false
end.

End Traces.

(** ** The specification's integer reading of a version *)

Module IntegerReading.
Import JsString JsNumber.

(** A segment parsed as an integer: the value of its decimal digits,
    0 when it is empty or holds anything else. *)
Definition spec_integerSegment (seg : jsstring) : Z :=
match digits 10 seg with
| Some n => Z.of_N n
| None => 0%Z
end.

(** The version triple of the data model: a sequence of non-negative
    integers. *)
Definition spec_integerTriple (v : jsstring) : list Z :=
List.map spec_integerSegment (split 46%N v).

(** Segment by segment greater, missing segments counting as 0: the
    sequences agree up to a position where the first holds the greater
    integer. *)
Definition spec_integerGreater (t1 t2 : list Z) : Prop :=
exists i,
  (forall j, (j < i)%nat -> nth j t1 0%Z = nth j t2 0%Z)
  /\ (nth i t2 0 < nth i t1 0)%Z.

End IntegerReading.

(** ** More concrete inputs *)

Module MoreExamples.
Import JsString JsNumber AppApi FetchModelsModal.

(** The version query fails; the network would answer. *)
Definition world_no_version : World :=
{| getVersion := inl (OtherValue (js "not available"));
   fetch := fun _ => inr Examples.response_404 |}.


(** An open modal showing a fetched list with a selection and a typed
    URL. *)
Definition component_fetched : Component :=
{| props := Examples.props_google;
   state := {| FetchModelsModal.loading := false; apiType := native;
               models := [Examples.gpt4; Examples.gpt5];
               selectedRowKeys := [js "gpt-5"];
               error := Some (js "timeout");
               fetched := true;
               customUrl := Examples.user_url;
               searchText := js "gpt" |} |}.

(** The same modal, closed. *)
Definition component_closed : Component :=
{| props := {| open := false; baseUrl := js "https://api.x.com"; apiKey := None;
               sdkType := Some sdk_google; existingModelIds := [js "gpt-4"] |};
   state := state component_fetched |}.

(** The configuration form as it opens, and three changes typed into
    the LSP editor: an object, a text that does not parse, an array. *)
Definition modal_opened : OhMyOpenCodeGlobalConfigModal.Modal :=
{| OhMyOpenCodeGlobalConfigModal.loading := false;
   OhMyOpenCodeGlobalConfigModal.lspJsonValid := true;
   OhMyOpenCodeGlobalConfigModal.experimentalJsonValid := true;
   OhMyOpenCodeGlobalConfigModal.otherFieldsValid := true;
   OhMyOpenCodeGlobalConfigModal.form := OhMyOpenCodeGlobalConfigModal.emptyStore |}.

Definition lsp_edits : list (OhMyOpenCodeGlobalConfigModal.jsval * bool) :=
[(OhMyOpenCodeGlobalConfigModal.VObject
    [(js "gopls", OhMyOpenCodeGlobalConfigModal.VObject [])], true);
 (OhMyOpenCodeGlobalConfigModal.VUndefined, false);
 (OhMyOpenCodeGlobalConfigModal.VNumber (Number (js "5")), true)].

(** Two well-formed integer versions one apart, beyond 2^53. *)
Definition world_big_integers : World :=
{| getVersion := inr (js "9007199254740992");
   fetch := fun _ => inr {| ok := true; statusText := js "OK";
                            json := inr {| version := Some (js "9007199254740993");
                                           notes := None; pub_date := None |} |} |}.

(** A remote version written with an exponent. *)
Definition world_exponent : World :=
{| getVersion := inr (js "0.2");
   fetch := fun _ => inr {| ok := true; statusText := js "OK";
                            json := inr {| version := Some (js "v0.1e1");
                                           notes := None; pub_date := None |} |} |}.

End MoreExamples.

(* ================================================================= *)
(** * Part II: properties *)
(* ================================================================= *)

(** ** Strings *)

Section StringFacts.
Import JsString.

Lemma eqb_eq (a b : jsstring) : JsString.eqb a b = true <-> a = b.
Proof.
  revert b; induction a as [|x a IH]; intros [|y b]; simpl;
    try (split; [discriminate | congruence]); try tauto.
  rewrite andb_true_iff, N.eqb_eq, IH.
  split; [intros [-> ->]; reflexivity | intros H; injection H; auto].
Qed.

Lemma eqb_refl (a : jsstring) : JsString.eqb a a = true.
Proof. apply eqb_eq; reflexivity. Qed.

Lemma eqb_neq (a b : jsstring) : JsString.eqb a b = false <-> a <> b.
Proof.
  rewrite <- eqb_eq. destruct (JsString.eqb a b); split; congruence.
Qed.

Lemma startsWith_prefix (s p : jsstring) :
  startsWith s p = true <-> exists rest, s = p ++ rest.
Proof.
  revert s; induction p as [|x p IH]; intros s; simpl.
  - split; [intros _; exists s; reflexivity | intros _; destruct s; reflexivity].
  - destruct s as [|y s].
    + split; [discriminate | intros [r Hr]; discriminate].
    + change (startsWith (y :: s) (x :: p)) with (N.eqb x y && startsWith s p).
      rewrite andb_true_iff, N.eqb_eq, IH. split.
      * intros [-> [r ->]]. exists r; reflexivity.
      * intros [r Hr]. injection Hr as -> ->. split; [reflexivity | exists r; reflexivity].
Qed.

(** [includes] finds exactly the substrings. *)
Lemma includes_substring (s q : jsstring) :
  includes s q = true <-> exists before after, s = before ++ q ++ after.
Proof.
  induction s as [|c s IH].
  - change (includes [] q) with (startsWith [] q || false).
    rewrite orb_false_r, startsWith_prefix. split.
    + intros [r Hr]. exists [], r. exact Hr.
    + intros [[|b before] [after H]]; [exists after; exact H | discriminate].
  - change (includes (c :: s) q) with (startsWith (c :: s) q || includes s q).
    rewrite orb_true_iff, startsWith_prefix, IH. split.
    + intros [[r Hr] | [b [a H]]].
      * exists [], r. exact Hr.
      * exists (c :: b), a. simpl. rewrite H; reflexivity.
    + intros [[|b before] [after H]].
      * left. exists after. exact H.
      * right. injection H as -> H. exists before, after. exact H.
Qed.

Lemma includes_empty (s : jsstring) : includes s [] = true.
Proof. destruct s; reflexivity. Qed.

Lemma arrayIncludes_In (arr : list jsstring) (x : jsstring) :
  arrayIncludes arr x = true <-> In x arr.
Proof.
  unfold arrayIncludes. rewrite existsb_exists. split.
  - intros [y [Hy He]]. apply eqb_eq in He. subst; exact Hy.
  - intros H. exists x. split; [exact H | apply eqb_refl].
Qed.

(** [endsWith] finds exactly the suffixes. *)
Lemma endsWith_suffix (s p : jsstring) :
  endsWith s p = true <-> exists front, s = front ++ p.
Proof.
  unfold endsWith. destruct (Nat.ltb_spec (List.length s) (List.length p)) as [Hlt | Hge].
  - split; [discriminate|]. intros [f ->]. rewrite length_app in Hlt. lia.
  - rewrite eqb_eq. split.
    + intros H. exists (firstn (List.length s - List.length p) s).
      rewrite <- H at 2. symmetry. apply firstn_skipn.
    + intros [f ->]. rewrite length_app.
      replace (List.length f + List.length p - List.length p)%nat with (List.length f + 0)%nat by lia.
      rewrite skipn_app, Nat.add_0_r, skipn_all.
      replace (List.length f - List.length f)%nat with 0%nat by lia. reflexivity.
Qed.

(** [s.slice(0, -n)] keeps all but the last [n] code units. *)
Lemma slice_drop_last (s : jsstring) (n : nat) :
  (0 < n)%nat ->
  slice s 0 (- Z.of_nat n) = firstn (List.length s - n) s.
Proof.
  intros Hn. unfold slice, relIndex.
  replace (0 <? 0)%Z with false by reflexivity.
  destruct (Z.ltb_spec (- Z.of_nat n) 0) as [_|H]; [|lia].
  rewrite Z.min_l by lia. simpl skipn. f_equal. lia.
Qed.

Lemma replaceTrailingSlash_front (s : jsstring) :
  replaceTrailingSlash (s ++ [47%N]) = s.
Proof.
  unfold replaceTrailingSlash. rewrite rev_app_distr. simpl. apply rev_involutive.
Qed.

Lemma replaceTrailingSlash_other (s : jsstring) :
  endsWith s [47%N] = false -> replaceTrailingSlash s = s.
Proof.
  intros H. unfold replaceTrailingSlash.
  destruct (rev s) as [|c r] eqn:E; [reflexivity|].
  destruct (N.eqb_spec c 47) as [->|Hc].
  - assert (Hs : s = rev r ++ [47%N]).
    { rewrite <- (rev_involutive s), E. reflexivity. }
    assert (Ht : endsWith s [47%N] = true) by (apply endsWith_suffix; eauto).
    congruence.
  - destruct c as [|p]; [reflexivity|].
    do 6 (destruct p as [p|p|]; try reflexivity). congruence.
Qed.

End StringFacts.

(** ** Numbers *)

Section NumberFacts.
Import JsNumber.

Lemma SFcompare_swap (x y : number) :
  SFcompare y x = option_map CompOpp (SFcompare x y).
Proof.
  destruct x as [sx|sx| |sx mx ex], y as [sy|sy| |sy my ey]; simpl;
    try reflexivity;
    try (destruct sx; reflexivity); try (destruct sy; reflexivity);
    try (destruct sx, sy; reflexivity).
  pose proof (Pos.compare_cont_antisym mx my Eq) as Hm. simpl in Hm.
  destruct sx, sy; try reflexivity;
    rewrite (Z.compare_antisym ex ey);
    destruct (ex ?= ey)%Z; simpl; try reflexivity;
    repeat f_equal; symmetry; exact Hm.
Qed.

(** [<] is asymmetric on numbers. *)
Lemma lt_asym (x y : number) : lt x y = true -> lt y x = false.
Proof.
  unfold lt, SFltb. rewrite (SFcompare_swap x y).
  destruct (SFcompare x y) as [[| |]|]; simpl; congruence.
Qed.

Lemma lt_irrefl (x : number) : lt x x = false.
Proof.
  destruct (lt x x) eqn:E; [|reflexivity].
  rewrite (lt_asym _ _ E) in E. discriminate.
Qed.

Lemma gt_lt (x y : number) : gt x y = lt y x.
Proof. reflexivity. Qed.

End NumberFacts.

(** ** [compareVersions] *)

Section CompareVersions.
Import JsString JsNumber AppApi.

(** The number the loop reads at index [i]: [parts[i] || 0]. *)
Local Abbreviation read parts i := (orZero (nth_error parts i)).

Lemma read_never_NaN (parts : list number) (i : nat) : read parts i <> NaN.
Proof.
  unfold orZero. destruct (nth_error parts i) as [[| | |]|]; simpl; discriminate.
Qed.

Lemma nth_repeat_zero (k m : nat) : nth k (repeat zero m) zero = zero.
Proof.
  revert k; induction m as [|m IH]; intros [|k]; simpl; auto.
Qed.

(** Reading index [k] of the parsed parts is reading segment [k] of
    the padded triple, whatever the padding. *)
Lemma read_parts_segment (ss : list jsstring) (k m : nat) :
  nth k (List.map (fun seg => let n := Number seg in
                               if JsNumber.truthy n then n else zero) ss
         ++ repeat zero m) zero
  = read (List.map Number ss) k.
Proof.
  revert k; induction ss as [|s ss IH]; intros k.
  - simpl app. rewrite nth_repeat_zero. destruct k; reflexivity.
  - destruct k as [|k]; [reflexivity|]. simpl. apply IH.
Qed.

Lemma segment_read (v : jsstring) (k : nat) :
  segment (spec_versionTriple v) k = read (List.map Number (split 46%N v)) k.
Proof.
  unfold segment, spec_versionTriple.
  rewrite <- (read_parts_segment (split 46%N v) k 0).
  simpl repeat. rewrite app_nil_r. reflexivity.
Qed.

Lemma spec_pad_length (n : nat) (t : list number) :
  (List.length t <= n)%nat -> List.length (spec_pad n t) = n.
Proof.
  intros H. unfold spec_pad. rewrite length_app, repeat_length. lia.
Qed.

(** The loop from index [i] is the first difference of any two lists
    that hold what it reads from [i] on. *)
Lemma compareLoop_firstDifference (parts1 parts2 : list number) :
  forall (remaining i : nat) (l1 l2 : list number),
    List.length l1 = remaining -> List.length l2 = remaining ->
    (forall k, (k < remaining)%nat -> nth k l1 zero = read parts1 (i + k)) ->
    (forall k, (k < remaining)%nat -> nth k l2 zero = read parts2 (i + k)) ->
    compareLoop parts1 parts2 i remaining = spec_firstDifference l1 l2.
Proof.
  induction remaining as [|r IH]; intros i l1 l2 H1 H2 R1 R2.
  - destruct l1; [|discriminate]. reflexivity.
  - destruct l1 as [|x l1]; [discriminate|]. destruct l2 as [|y l2]; [discriminate|].
    simpl.
    pose proof (R1 0%nat ltac:(lia)) as E1. pose proof (R2 0%nat ltac:(lia)) as E2.
    simpl in E1, E2. rewrite Nat.add_0_r in E1, E2. rewrite <- E1, <- E2.
    destruct (gt x y); [reflexivity|]. destruct (lt x y); [reflexivity|].
    apply IH.
    + simpl in H1; lia.
    + simpl in H2; lia.
    + intros k Hk. specialize (R1 (S k) ltac:(lia)). simpl in R1.
      rewrite R1. f_equal. f_equal. lia.
    + intros k Hk. specialize (R2 (S k) ltac:(lia)). simpl in R2.
      rewrite R2. f_equal. f_equal. lia.
Qed.

Lemma compareLoop_range (parts1 parts2 : list number) (remaining i : nat) :
  let r := compareLoop parts1 parts2 i remaining in
  (r = -1 \/ r = 0 \/ r = 1)%Z.
Proof.
  revert i; induction remaining as [|n IH]; intros i; simpl.
  - auto.
  - destruct (gt _ _); [auto|]. destruct (lt _ _); [auto|]. apply IH.
Qed.

Lemma compareLoop_antisym (parts1 parts2 : list number) (remaining i : nat) :
  compareLoop parts1 parts2 i remaining
  = (- compareLoop parts2 parts1 i remaining)%Z.
Proof.
  revert i; induction remaining as [|n IH]; intros i; simpl; [reflexivity|].
  rewrite !gt_lt.
  destruct (lt (read parts2 i) (read parts1 i)) eqn:E21.
  - rewrite (lt_asym _ _ E21). reflexivity.
  - destruct (lt (read parts1 i) (read parts2 i)); [reflexivity | apply IH].
Qed.

Lemma compareLoop_same (parts : list number) (remaining i : nat) :
  compareLoop parts parts i remaining = 0%Z.
Proof.
  revert i; induction remaining as [|n IH]; intros i; simpl; [reflexivity|].
  rewrite gt_lt, lt_irrefl. apply IH.
Qed.

(** The loop answers 1 exactly when, at some index it visits, the left
    number is greater and no earlier index told the two apart. *)
Lemma compareLoop_greater (parts1 parts2 : list number) :
  forall remaining i,
    compareLoop parts1 parts2 i remaining = 1%Z <->
    exists k, (k < remaining)%nat /\
      (forall j, (j < k)%nat ->
         gt (read parts1 (i + j)) (read parts2 (i + j)) = false /\
         lt (read parts1 (i + j)) (read parts2 (i + j)) = false) /\
      gt (read parts1 (i + k)) (read parts2 (i + k)) = true.
Proof.
  induction remaining as [|r IH]; intros i; simpl.
  - split; [discriminate | intros [k [Hk _]]; lia].
  - destruct (gt (read parts1 i) (read parts2 i)) eqn:G.
    + split; [intros _ | reflexivity].
      exists 0%nat. rewrite Nat.add_0_r.
      split; [lia | split; [intros j Hj; lia | exact G]].
    + destruct (lt (read parts1 i) (read parts2 i)) eqn:L.
      * split; [discriminate|]. intros [[|k] [Hk [Hpre Hgt]]].
        -- rewrite Nat.add_0_r in Hgt. congruence.
        -- destruct (Hpre 0%nat ltac:(lia)) as [_ HL].
           rewrite Nat.add_0_r in HL. congruence.
      * rewrite IH. split.
        -- intros [k [Hk [Hpre Hgt]]]. exists (S k).
           split; [lia | split].
           ++ intros [|j] Hj; [rewrite Nat.add_0_r; auto|].
              replace (i + S j)%nat with (S i + j)%nat by lia.
              apply Hpre; lia.
           ++ replace (i + S k)%nat with (S i + k)%nat by lia. exact Hgt.
        -- intros [[|k] [Hk [Hpre Hgt]]].
           ++ rewrite Nat.add_0_r in Hgt. congruence.
           ++ exists k. split; [lia | split].
              ** intros j Hj.
                 replace (S i + j)%nat with (i + S j)%nat by lia. apply Hpre; lia.
              ** replace (S i + k)%nat with (i + S k)%nat by lia. exact Hgt.
Qed.

Lemma read_past_end (parts : list number) (i : nat) :
  (List.length parts <= i)%nat -> read parts i = zero.
Proof.
  intros H. apply nth_error_None in H. rewrite H. reflexivity.
Qed.

(** In the terms of the data model: the answer is 1 exactly when the
    first triple is greater segment by segment. *)
Lemma compareVersions_greater (v1 v2 : jsstring) :
  compareVersions v1 v2 = 1%Z <->
  spec_greater (spec_versionTriple v1) (spec_versionTriple v2).
Proof.
  unfold compareVersions, spec_greater. rewrite compareLoop_greater. simpl.
  split.
  - intros [k [Hk [Hpre Hgt]]]. exists k. split.
    + intros j Hj. rewrite !segment_read. apply Hpre; exact Hj.
    + rewrite !segment_read. exact Hgt.
  - intros [k [Hpre Hgt]]. exists k. rewrite !segment_read in Hgt.
    split; [|split].
    + destruct (Nat.lt_ge_cases k
        (Nat.max (List.length (List.map Number (split 46%N v1)))
                 (List.length (List.map Number (split 46%N v2))))) as [Hlt|Hge];
        [exact Hlt|].
      rewrite 2!read_past_end in Hgt by lia.
      discriminate.
    + intros j Hj. rewrite <- !segment_read. apply Hpre; exact Hj.
    + exact Hgt.
Qed.

(** C1. [compareVersions] is a total function of two strings (no
    operation in it can throw) with values in {-1, 0, 1}; it splits
    both arguments on ['.'], parses each segment as a number with
    non-numeric and missing trailing segments counting as 0, and lets
    the first differing segment, up to the longer length, decide; so
    [compareVersions("1.2.0", "1.10.0") = -1] and
    [compareVersions("1.2", "1.2.0") = 0]. *)
Theorem compareVersions_total_spec (v1 v2 : jsstring) :
  (compareVersions v1 v2 = -1 \/ compareVersions v1 v2 = 0
   \/ compareVersions v1 v2 = 1)%Z
  /\ compareVersions v1 v2 = spec_compareVersions v1 v2
  /\ compareVersions (js "1.2.0") (js "1.10.0") = (-1)%Z
  /\ compareVersions (js "1.2") (js "1.2.0") = 0%Z.
Proof.
  split; [apply compareLoop_range|]. split; [|split; reflexivity].
  unfold compareVersions, spec_compareVersions, spec_versionTriple.
  set (f := fun seg => let n := Number seg in if JsNumber.truthy n then n else zero).
  rewrite !length_map.
  set (n := Nat.max (List.length (split 46%N v1)) (List.length (split 46%N v2))).
  apply compareLoop_firstDifference.
  - apply spec_pad_length. rewrite length_map. lia.
  - apply spec_pad_length. rewrite length_map. lia.
  - intros k _. apply read_parts_segment.
  - intros k _. apply read_parts_segment.
Qed.

(** Segments that are not numbers count as 0, on either side. *)
Example compareVersions_malformed :
  spec_versionTriple (js "1.x.3-beta") = spec_versionTriple (js "1.0.0")
  /\ compareVersions (js "1.x.3-beta") (js "1.0") = 0%Z
  /\ compareVersions (js "") (js "0.0.1") = (-1)%Z
  /\ compareVersions (js "2") (js "1.9.9") = 1%Z.
Proof. repeat split; reflexivity. Qed.

(** C9. [compareVersions] is anti-symmetric,
    [compareVersions(a, b) = -compareVersions(b, a)], and reflexive,
    [compareVersions(a, a) = 0], for all strings. *)
Theorem compareVersions_antisym_refl (a b : jsstring) :
  compareVersions a b = (- compareVersions b a)%Z /\ compareVersions a a = 0%Z.
Proof.
  split.
  - unfold compareVersions. simpl. rewrite Nat.max_comm. apply compareLoop_antisym.
  - apply compareLoop_same.
Qed.

End CompareVersions.

(** ** [checkForUpdates] *)

Section CheckForUpdates.
Import JsString JsNumber AppApi.

Lemma positive_iff_one (v1 v2 : jsstring) :
  (0 <? compareVersions v1 v2)%Z = true <-> compareVersions v1 v2 = 1%Z.
Proof.
  rewrite Z.ltb_lt.
  destruct (compareLoop_range (List.map Number (split 46%N v1))
              (List.map Number (split 46%N v2))
              (Nat.max (List.length (List.map Number (split 46%N v1)))
                       (List.length (List.map Number (split 46%N v2)))) 0)
    as [H | [H | H]]; unfold compareVersions; simpl in *; lia.
Qed.

(** C2, as stated, fails: the segments are binary64 numbers as
    [Number] reads them, not integers. Remote ["9007199254740993"] is
    the greater integer sequence against current ["9007199254740992"],
    yet both read as 2^53 and no update is announced; remote
    ["v0.1e1"] is announced against current ["0.2"], since ["1e1"]
    reads as 10, though as an integer sequence it is not greater. *)
Lemma checkForUpdates_not_integer_reading :
  (exists info,
     fst (run (checkForUpdates MoreExamples.world_big_integers)) = inr info
     /\ latestVersion info = js "9007199254740993"
     /\ currentVersion info = js "9007199254740992"
     /\ hasUpdate info = false
     /\ IntegerReading.spec_integerGreater
          (IntegerReading.spec_integerTriple (latestVersion info))
          (IntegerReading.spec_integerTriple (currentVersion info)))
  /\ (exists info,
        fst (run (checkForUpdates MoreExamples.world_exponent)) = inr info
        /\ latestVersion info = js "0.1e1"
        /\ currentVersion info = js "0.2"
        /\ hasUpdate info = true
        /\ ~ IntegerReading.spec_integerGreater
               (IntegerReading.spec_integerTriple (latestVersion info))
               (IntegerReading.spec_integerTriple (currentVersion info))).
Proof.
  split; eexists; (split; [reflexivity|]);
    (split; [reflexivity|]); (split; [reflexivity|]); (split; [reflexivity|]).
  - exists 0%nat. split; [intros j Hj; lia|]. vm_compute. reflexivity.
  - intros [i [Hpre Hgt]]. destruct i as [|[|i]].
    + vm_compute in Hgt. discriminate Hgt.
    + vm_compute in Hgt. discriminate Hgt.
    + specialize (Hpre 1%nat ltac:(lia)). vm_compute in Hpre. discriminate Hpre.
Qed.

(** C2, amended. When the version query, the request and the JSON body
    all succeed, [checkForUpdates] returns an [UpdateInfo] for the
    current version and the latest one, which is the descriptor's
    version without one leading ['v'] (the empty string when the field
    is missing), and its [hasUpdate] is true if and only if the latest
    version's segment sequence is greater than the current one's
    segment by segment, the first differing segment deciding, where a
    segment is the binary64 number [Number] reads (0 for [NaN] and for
    a missing segment); equal or lesser sequences give false. *)
Theorem checkForUpdates_hasUpdate
  (w : World) (current : jsstring) (response : Response) (release : LatestRelease) :
  getVersion w = inr current ->
  fetch w LATEST_JSON_URL = inr response ->
  ok response = true ->
  json response = inr release ->
  exists info,
    fst (run (checkForUpdates w)) = inr info
    /\ currentVersion info = current
    /\ (version release = None -> latestVersion info = [])
    /\ (forall rest, version release = Some (js "v" ++ rest) -> latestVersion info = rest)
    /\ (forall v, version release = Some v -> startsWith v (js "v") = false ->
                  latestVersion info = v)
    /\ (hasUpdate info = true <->
        spec_greater (spec_versionTriple (latestVersion info))
                     (spec_versionTriple current)).
Proof.
  intros Hv Hf Hok Hj.
  unfold run, checkForUpdates, bind, await, ret. simpl.
  rewrite Hv, Hf. simpl. rewrite Hok. simpl. rewrite Hj. simpl.
  eexists. split; [reflexivity|]. simpl.
  split; [reflexivity|]. unfold latestVersionOf.
  split; [intros ->; reflexivity|].
  split; [intros rest ->; reflexivity|].
  split.
  - intros v -> Hnov. destruct v as [|c v]; [reflexivity|].
    unfold replaceLeadingV. destruct (N.eqb_spec c 118) as [->|Hc].
    + change (js "v") with [118%N] in Hnov. destruct v; discriminate Hnov.
    + destruct c as [|p]; [reflexivity|].
      do 7 (destruct p as [p|p|]; try reflexivity). congruence.
  - rewrite positive_iff_one. apply compareVersions_greater.
Qed.

(** Remote ["v2.0.0"] against current ["1.9.9"]: an update. *)
Lemma checkForUpdates_hasUpdate_witness :
  exists info,
    fst (run (checkForUpdates Examples.world_update)) = inr info
    /\ currentVersion info = js "1.9.9"
    /\ (version Examples.release_2_0_0 = None -> latestVersion info = [])
    /\ (forall rest, version Examples.release_2_0_0 = Some (js "v" ++ rest) ->
                     latestVersion info = rest)
    /\ (forall v, version Examples.release_2_0_0 = Some v ->
                  startsWith v (js "v") = false -> latestVersion info = v)
    /\ (hasUpdate info = true <->
        spec_greater (spec_versionTriple (latestVersion info))
                     (spec_versionTriple (js "1.9.9"))).
Proof.
  apply (@checkForUpdates_hasUpdate Examples.world_update (js "1.9.9")
           {| ok := true; statusText := js "OK"; json := inr Examples.release_2_0_0 |}
           Examples.release_2_0_0); reflexivity.
Defined.

Example checkForUpdates_2_0_0 :
  fst (run (checkForUpdates Examples.world_update))
  = inr {| hasUpdate := true;
           currentVersion := js "1.9.9";
           latestVersion := js "2.0.0";
           releaseUrl := js "https://github.com/coulsontl/ai-toolbox/releases/tag/v2.0.0";
           releaseNotes := js "Bug fixes" |}.
Proof. reflexivity. Qed.

(** C7. When the response has a non-success status, [checkForUpdates]
    rejects with an [Error] whose message ends in the response's status
    text; the rejection is its outcome (no [UpdateInfo]), and the log
    shows the single request and nothing after it: no retry, no read
    of the body. *)
Theorem checkForUpdates_http_error
  (w : World) (current : jsstring) (response : Response) :
  getVersion w = inr current ->
  fetch w LATEST_JSON_URL = inr response ->
  ok response = false ->
  run (checkForUpdates w)
  = (inl (ErrorObject (js "Failed to fetch latest.json: " ++ statusText response)),
     [GetVersion; Fetch LATEST_JSON_URL])
  /\ includes (js "Failed to fetch latest.json: " ++ statusText response)
              (statusText response) = true.
Proof.
  intros Hv Hf Hok. split.
  - unfold run, checkForUpdates, bind, await, throw. simpl.
    rewrite Hv, Hf. simpl. rewrite Hok. reflexivity.
  - apply includes_substring.
    exists (js "Failed to fetch latest.json: "), []. rewrite app_nil_r. reflexivity.
Qed.

Lemma checkForUpdates_http_error_witness :
  run (checkForUpdates Examples.world_404)
  = (inl (ErrorObject (js "Failed to fetch latest.json: "
                       ++ statusText Examples.response_404)),
     [GetVersion; Fetch LATEST_JSON_URL])
  /\ includes (js "Failed to fetch latest.json: " ++ statusText Examples.response_404)
              (statusText Examples.response_404) = true.
Proof.
  apply (@checkForUpdates_http_error Examples.world_404 (js "1.9.9")
           Examples.response_404); reflexivity.
Defined.

End CheckForUpdates.

(** ** The search filter *)

Section SearchFilter.
Import JsString FetchModelsModal.

Variable toLowerCase : jsstring -> jsstring.

(** Lower-casing the empty string gives the empty string. *)
Hypothesis toLowerCase_empty : toLowerCase [] = [].

Lemma includes_in_empty (q : jsstring) : includes [] q = true -> q = [].
Proof.
  intros H. apply includes_substring in H. destruct H as [b [a H]].
  symmetry in H. apply app_eq_nil in H. destruct H as [_ H].
  apply app_eq_nil in H. tauto.
Qed.

Lemma spec_matchesb_matches (query : jsstring) (m : FetchedModel) :
  spec_matchesb toLowerCase query m = true <-> spec_matches toLowerCase query m.
Proof.
  unfold spec_matchesb, spec_matches, spec_containsCI. rewrite existsb_exists.
  split; intros [f [Hin H]]; exists f; split; auto; apply includes_substring; exact H.
Qed.

(** On a non-empty lowered query the guard [f && ...] of an optional
    field changes nothing: an empty field contains no such query. *)
Lemma fieldMatches_unguarded (f : option jsstring) (lowerSearch : jsstring) :
  lowerSearch <> [] ->
  fieldMatches toLowerCase f lowerSearch
  = existsb (fun field => includes (toLowerCase field) lowerSearch)
            (match f with Some v => [v] | None => [] end).
Proof.
  intros Hq. destruct f as [[|c v]|]; simpl; try rewrite orb_false_r; try reflexivity.
  rewrite toLowerCase_empty. symmetry.
  destruct (includes [] lowerSearch) eqn:E; [|reflexivity].
  apply includes_in_empty in E. contradiction.
Qed.

Lemma filter_predicate_spec (searchText : jsstring) (m : FetchedModel) :
  includes (toLowerCase (id m)) (toLowerCase searchText)
  || fieldMatches toLowerCase (name m) (toLowerCase searchText)
  || fieldMatches toLowerCase (ownedBy m) (toLowerCase searchText)
  = spec_matchesb toLowerCase searchText m.
Proof.
  unfold spec_matchesb, spec_searchFields.
  rewrite !existsb_app. simpl existsb at 1. rewrite orb_false_r.
  destruct (includes (toLowerCase (id m)) (toLowerCase searchText)) eqn:E;
    [reflexivity|].
  assert (Hq : toLowerCase searchText <> []).
  { intros H. rewrite H, includes_empty in E. discriminate. }
  rewrite !(fieldMatches_unguarded _ Hq). reflexivity.
Qed.

(** C5. The search filter returns exactly the models one of whose
    fields [id], [name] (if present), [ownedBy] (if present) contains
    the query as a substring once both are lower-cased, in the order of
    the input (it is the input filtered by that test); on the empty
    query it returns the input itself. *)
Theorem filteredModels_spec (models : list FetchedModel) (query : jsstring) :
  filteredModels toLowerCase models query
  = filter (spec_matchesb toLowerCase query) models
  /\ (forall m, spec_matchesb toLowerCase query m = true
                <-> spec_matches toLowerCase query m)
  /\ (forall m, In m (filteredModels toLowerCase models query)
                <-> In m models /\ spec_matches toLowerCase query m)
  /\ filteredModels toLowerCase models [] = models.
Proof.
  assert (Heq : filteredModels toLowerCase models query
                = filter (spec_matchesb toLowerCase query) models).
  { unfold filteredModels. destruct query as [|c q]; simpl negb; cbv iota.
    - symmetry. apply forallb_filter_id. apply forallb_forall. intros m _.
      unfold spec_matchesb, spec_searchFields. simpl.
      rewrite toLowerCase_empty, includes_empty. reflexivity.
    - apply filter_ext. intros m. apply filter_predicate_spec. }
  split; [exact Heq|]. split; [apply spec_matchesb_matches|]. split.
  - intros m. rewrite Heq, filter_In, spec_matchesb_matches. reflexivity.
  - reflexivity.
Qed.

End SearchFilter.

(** [filterBySearch([{id:"gpt-4", ownedBy:"OpenAI"}], "openai")] finds
    the model through its [ownedBy] field. *)
Lemma filteredModels_spec_witness :
  let models := [Examples.gpt4] in
  let query := JsString.js "openai" in
  FetchModelsModal.filteredModels JsString.asciiLower models query
  = filter (FetchModelsModal.spec_matchesb JsString.asciiLower query) models
  /\ (forall m, FetchModelsModal.spec_matchesb JsString.asciiLower query m = true
                <-> FetchModelsModal.spec_matches JsString.asciiLower query m)
  /\ (forall m, In m (FetchModelsModal.filteredModels JsString.asciiLower models query)
                <-> In m models /\ FetchModelsModal.spec_matches JsString.asciiLower query m)
  /\ FetchModelsModal.filteredModels JsString.asciiLower models [] = models.
Proof.
  apply (@filteredModels_spec JsString.asciiLower); reflexivity.
Defined.

Example filteredModels_ownedBy :
  FetchModelsModal.filteredModels JsString.asciiLower
    [Examples.gpt5; Examples.gpt4] (JsString.js "openai")
  = [Examples.gpt4].
Proof. reflexivity. Qed.

(** ** The default URL *)

Section CalculatedUrl.
Import JsString FetchModelsModal.

Lemma firstn_front (a b : jsstring) :
  firstn (List.length (a ++ b) - List.length b) (a ++ b) = a.
Proof.
  rewrite length_app.
  replace (List.length a + List.length b - List.length b)%nat
    with (List.length a + 0)%nat by lia.
  rewrite firstn_app_2. simpl. apply app_nil_r.
Qed.

Lemma replaceTrailingSlash_dropSlash (s : jsstring) :
  replaceTrailingSlash s = spec_dropSlash s.
Proof.
  unfold spec_dropSlash. change (js "/") with [47%N].
  destruct (endsWith s [47%N]) eqn:E.
  - apply endsWith_suffix in E. destruct E as [f ->].
    rewrite replaceTrailingSlash_front.
    symmetry. apply (firstn_front f [47%N]).
  - apply replaceTrailingSlash_other. exact E.
Qed.

Lemma baseStripped_spec (base : jsstring) :
  (if endsWith base (js "/v1beta")
   then slice base 0 (- Z.of_nat (List.length (js "/v1beta")))
   else if endsWith base (js "/v1")
        then slice base 0 (- Z.of_nat (List.length (js "/v1")))
        else base)
  = spec_stripVersionSuffix base.
Proof.
  unfold spec_stripVersionSuffix.
  rewrite !slice_drop_last by (simpl; lia). reflexivity.
Qed.

(** What stripping means, suffix by suffix. *)
Lemma spec_stripVersionSuffix_v1beta (b : jsstring) :
  spec_stripVersionSuffix (b ++ js "/v1beta") = b.
Proof.
  unfold spec_stripVersionSuffix.
  replace (endsWith (b ++ js "/v1beta") (js "/v1beta")) with true
    by (symmetry; apply endsWith_suffix; eauto).
  apply firstn_front.
Qed.

Lemma spec_stripVersionSuffix_v1 (b : jsstring) :
  spec_stripVersionSuffix (b ++ js "/v1") = b.
Proof.
  unfold spec_stripVersionSuffix.
  destruct (endsWith (b ++ js "/v1") (js "/v1beta")) eqn:E.
  - apply endsWith_suffix in E. destruct E as [f E].
    apply (f_equal (@rev codeunit)) in E. rewrite !rev_app_distr in E.
    discriminate E.
  - replace (endsWith (b ++ js "/v1") (js "/v1")) with true
      by (symmetry; apply endsWith_suffix; eauto).
    apply firstn_front.
Qed.

(** C3, as stated, fails: the code first drops a ['/'] that ends the
    base URL, and it appends no ['?key='] for an empty key. *)
Lemma calculatedUrl_not_spec_buildFetchUrl :
  calculatedUrl (js "https://api.x.com/") openai_compat None None
  = js "https://api.x.com/v1/models"
  /\ spec_buildFetchUrl (js "https://api.x.com/") openai_compat None None
     = js "https://api.x.com//v1/models"
  /\ calculatedUrl (js "https://api.x.com/") openai_compat None None
     <> spec_buildFetchUrl (js "https://api.x.com/") openai_compat None None
  /\ calculatedUrl (js "https://api.x.com") native (Some sdk_google) (Some [])
     <> spec_buildFetchUrl (js "https://api.x.com") native (Some sdk_google) (Some []).
Proof.
  split; [reflexivity|]. split; [reflexivity|]. split; apply eqb_neq; reflexivity.
Qed.

(** The identifiers matter: any other [sdkType] takes the fallback. *)
Example calculatedUrl_other_sdk :
  calculatedUrl (js "https://api.x.com/v1/") native (Some (js "@ai-sdk/openai"))
                (Some (js "KEY"))
  = js "https://api.x.com/v1/models".
Proof. reflexivity. Qed.

(** C3, amended. The default URL is the base URL without one trailing
    ['/'] and then without a trailing ['/v1beta'] or ['/v1'], followed
    by ['/v1/models'] for [openai_compat] (any [sdkType]), by
    ['/v1beta/models'] for native Google, with ['?key=' + apiKey] when
    the key is present and not empty, and by ['/v1/models'] for native
    Anthropic and every other native [sdkType]; the two examples of the
    specification hold with the identifiers the code compares
    against. *)
Theorem calculatedUrl_spec
  (baseUrl : jsstring) (apiType : ApiType) (sdkType apiKey : option jsstring) :
  calculatedUrl baseUrl apiType sdkType apiKey
  = spec_buildFetchUrl_amended baseUrl apiType sdkType apiKey
  /\ calculatedUrl (js "https://api.x.com/v1") native (Some sdk_google) (Some (js "KEY"))
     = js "https://api.x.com/v1beta/models?key=KEY"
  /\ calculatedUrl (js "https://api.x.com/v1beta") native (Some sdk_anthropic) None
     = js "https://api.x.com/v1/models".
Proof.
  split; [|split; reflexivity].
  unfold calculatedUrl, spec_buildFetchUrl_amended, spec_pathOf.
  rewrite baseStripped_spec, replaceTrailingSlash_dropSlash.
  destruct apiType.
  - destruct (sdkIs sdkType sdk_google).
    + destruct apiKey as [[|c k]|]; simpl JsString.truthy; cbv iota;
        rewrite <- ?app_assoc, ?app_nil_r; reflexivity.
    + destruct (sdkIs sdkType sdk_anthropic); rewrite app_nil_r; reflexivity.
  - rewrite app_nil_r. reflexivity.
Qed.

End CalculatedUrl.

(** ** The component *)

Section Workflow.
Import JsString AppApi FetchModelsModal.

(** A render whose default URL and [open] flag are those of the render
    before runs no effect. *)
Lemma runEffects_idle (p : Props) (s s' : State) :
  calculatedUrlOf p s' = calculatedUrlOf p s ->
  runEffects (Some (calculatedUrlOf p s, open p)) p s' = s'.
Proof.
  intros H. unfold runEffects. rewrite H, eqb_refl, Bool.eqb_reflx. reflexivity.
Qed.

(** Whenever an event changes the default URL, the URL field ends up
    holding the new default, whatever it held before. *)
Lemma step_overwrites_customUrl (c : Component) (e : Event) :
  let c' := handle e c in
  calculatedUrlOf (props c') (state c') <> calculatedUrlOf (props c) (state c) ->
  customUrl (state (step c e)) = calculatedUrlOf (props c') (state c').
Proof.
  intros c' H. unfold step. fold c'. simpl. unfold runEffects.
  apply eqb_neq in H. assert (H' : JsString.eqb
    (calculatedUrlOf (props c) (state c)) (calculatedUrlOf (props c') (state c')) = false).
  { apply eqb_neq. apply eqb_neq in H. congruence. }
  rewrite H'. simpl. rewrite orb_true_r.
  unfold effect_resetOnOpen. destruct (open (props c')); reflexivity.
Qed.

(** C4, on the code: the modal is open, the user types a URL of their
    own, then picks the other API type; the first effect (whose comment
    reads "only if not manually edited") writes the new default over
    the typed URL, with no reset click and no fresh open. *)
Theorem customUrl_edit_overwritten :
  let c0 := mount Examples.props_google in
  let c1 := step c0 (EditUrl Examples.user_url) in
  let c2 := step c1 (ChangeApiType openai_compat) in
  open (props c2) = true
  /\ customUrl (state c1) = Examples.user_url
  /\ customUrl (state c2) = js "https://api.x.com/v1/models"
  /\ customUrl (state c2) <> Examples.user_url.
Proof.
  split; [reflexivity|]. split; [reflexivity|]. split; [reflexivity|].
  apply eqb_neq. reflexivity.
Qed.

(** An event that touches neither the props nor [apiType] is followed
    by no effect. *)
Lemma step_quiet (c : Component) (e : Event) :
  props (handle e c) = props c ->
  apiType (state (handle e c)) = apiType (state c) ->
  step c e = handle e c.
Proof.
  intros Hp Ha. unfold step. destruct (handle e c) as [p' s']. simpl in *. subst p'.
  f_equal. apply runEffects_idle. unfold calculatedUrlOf. rewrite Ha. reflexivity.
Qed.

(** C8. A failing fetch leaves the model list as it was: in whatever
    state they run, neither the start of [handleFetch] nor its [catch]
    branch writes [models] (nor [fetched], nor the selection); the
    failure only sets [error]. *)
Theorem failed_fetch_keeps_models (c : Component) (err : exn) :
  let begun := step c FetchBegins in
  let failed := step c (FetchSettles (inl err)) in
  models (state begun) = models (state c)
  /\ models (state failed) = models (state c)
  /\ fetched (state failed) = fetched (state c)
  /\ selectedRowKeys (state failed) = selectedRowKeys (state c)
  /\ error (state failed) = Some (errorMsg err)
  /\ models (state (steps c [FetchBegins; FetchSettles (inl err)])) = models (state c)
  /\ models (handleFetch (inl err) (state c)) = models (state c).
Proof.
  intros begun failed. subst failed begun. unfold steps. simpl fold_left.
  rewrite (step_quiet (step c FetchBegins) (FetchSettles (inl err))) by reflexivity.
  rewrite (step_quiet c FetchBegins) by reflexivity.
  rewrite (step_quiet c (FetchSettles (inl err))) by reflexivity.
  repeat split; reflexivity.
Qed.

(** C10. On confirm the success callback receives exactly the fetched
    models whose id is among the selected keys, taken from the whole
    fetched list in its order: a search changes nothing, and neither
    does the order the keys were selected in. *)
Theorem handleConfirm_spec (c : Component) (reordered : list jsstring) (q : jsstring) :
  (forall k, In k reordered <-> In k (selectedRowKeys (state c))) ->
  (forall m, In m (handleConfirm (state c))
             <-> In m (models (state c)) /\ In (id m) (selectedRowKeys (state c)))
  /\ (exists keep,
        (forall m, keep m = true <-> In (id m) (selectedRowKeys (state c)))
        /\ handleConfirm (state c) = filter keep (models (state c)))
  /\ handleConfirm (state (step c (ChangeSearch q))) = handleConfirm (state c)
  /\ handleConfirm (state (step c (ChangeSelection reordered)))
     = handleConfirm (state c).
Proof.
  intros Hsame. split; [|split; [|split]].
  - intros m. unfold handleConfirm. rewrite filter_In, arrayIncludes_In. reflexivity.
  - exists (fun m => arrayIncludes (selectedRowKeys (state c)) (id m)).
    split; [intros m; apply arrayIncludes_In | reflexivity].
  - rewrite step_quiet by reflexivity. reflexivity.
  - rewrite step_quiet by reflexivity. unfold handleConfirm. simpl.
    apply filter_ext. intros m.
    destruct (arrayIncludes (selectedRowKeys (state c)) (id m)) eqn:E.
    + apply arrayIncludes_In. apply Hsame. apply arrayIncludes_In. exact E.
    + destruct (arrayIncludes reordered (id m)) eqn:E'; [|reflexivity].
      apply arrayIncludes_In, Hsame, arrayIncludes_In in E'. congruence.
Qed.

Lemma handleConfirm_spec_witness :
  let c := {| props := Examples.props_google; state := Examples.state_selected |} in
  let reordered := [js "gpt-4"; js "gpt-5"] in
  let q := js "gpt-5" in
  (forall m, In m (handleConfirm (state c))
             <-> In m (models (state c)) /\ In (id m) (selectedRowKeys (state c)))
  /\ (exists keep,
        (forall m, keep m = true <-> In (id m) (selectedRowKeys (state c)))
        /\ handleConfirm (state c) = filter keep (models (state c)))
  /\ handleConfirm (state (step c (ChangeSearch q))) = handleConfirm (state c)
  /\ handleConfirm (state (step c (ChangeSelection reordered)))
     = handleConfirm (state c).
Proof.
  apply (@handleConfirm_spec
           {| props := Examples.props_google; state := Examples.state_selected |}
           [js "gpt-4"; js "gpt-5"] (js "gpt-5")).
  intros k. simpl. tauto.
Defined.

(** Both models were selected, last row first, and the search shows
    only [gpt4]: the callback still gets both, in fetched order. *)
Example handleConfirm_hidden_selected :
  filteredModels asciiLower (models Examples.state_selected)
                 (searchText Examples.state_selected) = [Examples.gpt4]
  /\ handleConfirm Examples.state_selected = [Examples.gpt4; Examples.gpt5].
Proof. split; reflexivity. Qed.

(** C6. The table shows one row per fetched model, in the order of the
    list and with repeated ids kept; a row carries the "already exists"
    mark exactly when its id is among the existing ids, and its
    checkbox is disabled exactly when it carries the mark. *)
Theorem tableRows_spec (existing : list jsstring) (dataSource : list FetchedModel) :
  List.map record (tableRows existing dataSource) = dataSource
  /\ List.length (tableRows existing dataSource) = List.length dataSource
  /\ Forall (fun r => (isExisting r = true <-> In (id (record r)) existing)
                      /\ checkboxDisabled r = isExisting r)
            (tableRows existing dataSource).
Proof.
  unfold tableRows. split; [|split].
  - rewrite map_map. simpl. apply map_id.
  - apply length_map.
  - apply Forall_forall. intros r Hr. apply in_map_iff in Hr.
    destruct Hr as [m [<- _]]. simpl. split; [|reflexivity].
    apply arrayIncludes_In.
Qed.

(** [reconcile({"gpt-4"}, [gpt-4, gpt-5, gpt-4])]: marked, free, marked. *)
Example tableRows_example :
  List.map (fun r => (id (record r), isExisting r, checkboxDisabled r))
           (tableRows [js "gpt-4"] [Examples.gpt4; Examples.gpt5; Examples.gpt4])
  = [(js "gpt-4", true, true); (js "gpt-5", false, false); (js "gpt-4", true, true)].
Proof. reflexivity. Qed.

End Workflow.

(* ================================================================= *)
(** * Part III: further properties of the code *)
(* ================================================================= *)

(** ** The order [compareVersions] induces *)

Section VersionOrder.
Import JsString JsNumber AppApi.

Lemma compare_cont_compare (a b : positive) :
  PosDef.Pos.compare_cont Eq a b = Pos.compare a b.
Proof. reflexivity. Qed.

Lemma SFcompare_Eq_left (x y z : number) :
  SFcompare x y = Some Eq -> SFcompare x z = SFcompare y z.
Proof.
  destruct x as [sx|sx| |sx mx ex], y as [sy|sy| |sy my ey]; simpl; intros H;
    try discriminate H;
    try (destruct sx; discriminate H); try (destruct sy; discriminate H).
  - destruct z; reflexivity.
  - destruct sx, sy; try discriminate H; reflexivity.
  - assert (sx = sy /\ ex = ey /\ mx = my) as [-> [-> ->]]; [|reflexivity].
    rewrite !compare_cont_compare in H.
    destruct sx, sy; try discriminate H;
      destruct (Z.compare_spec ex ey); try discriminate H;
      destruct (Pos.compare_spec mx my); try discriminate H; auto.
Qed.

Lemma SFcompare_Eq_sym (x y : number) :
  SFcompare x y = Some Eq -> SFcompare y x = Some Eq.
Proof. intros H. rewrite (SFcompare_swap x y), H. reflexivity. Qed.

Lemma SFcompare_Eq_right (x y z : number) :
  SFcompare x y = Some Eq -> SFcompare z x = SFcompare z y.
Proof.
  intros H. rewrite (SFcompare_swap x z), (SFcompare_swap y z).
  rewrite (SFcompare_Eq_left _ _ z H). reflexivity.
Qed.

Lemma SFcompare_Lt_trans (x y z : number) :
  SFcompare x y = Some Lt -> SFcompare y z = Some Lt -> SFcompare x z = Some Lt.
Proof.
  destruct x as [sx|sx| |sx mx ex], y as [sy|sy| |sy my ey], z as [sz|sz| |sz mz ez];
    simpl; intros H1 H2; try discriminate H1; try discriminate H2;
    repeat match goal with s : bool |- _ => destruct s end;
    try discriminate H1; try discriminate H2; try reflexivity;
    rewrite ?compare_cont_compare in *;
    destruct (Z.compare_spec ex ey); try discriminate H1;
    destruct (Z.compare_spec ey ez); try discriminate H2;
    destruct (Z.compare_spec ex ez); try lia; try reflexivity;
    destruct (Pos.compare_spec mx my); try discriminate H1;
    destruct (Pos.compare_spec my mz); try discriminate H2;
    destruct (Pos.compare_spec mx mz); try lia; try reflexivity.
Qed.

Lemma SFcompare_refl (x : number) : x <> NaN -> SFcompare x x = Some Eq.
Proof.
  intros Hx.
  destruct x as [s|s| |s m e];
    [reflexivity | destruct s; reflexivity | exfalso; apply Hx; reflexivity |].
  simpl. rewrite compare_cont_compare, Z.compare_refl, Pos.compare_refl.
  destruct s; reflexivity.
Qed.

Lemma SFcompare_total (x y : number) :
  x <> NaN -> y <> NaN -> exists c, SFcompare x y = Some c.
Proof.
  unfold NaN.
  destruct x, y; simpl; intros Hx Hy; try congruence; eexists; reflexivity.
Qed.

(** On numbers that are not [NaN], "neither greater nor less" is
    [SFcompare]'s [Eq]. *)
Lemma same_iff (x y : number) :
  x <> NaN -> y <> NaN ->
  (gt x y = false /\ lt x y = false) <-> SFcompare x y = Some Eq.
Proof.
  intros Hx Hy. destruct (SFcompare_total Hx Hy) as [c Hc].
  unfold gt, lt, SFltb. rewrite (SFcompare_swap x y), Hc.
  destruct c; simpl; intuition congruence.
Qed.

Lemma lt_trans (x y z : number) : lt x y = true -> lt y z = true -> lt x z = true.
Proof.
  unfold lt, SFltb. intros H1 H2.
  destruct (SFcompare x y) as [[| |]|] eqn:E1; try discriminate H1.
  destruct (SFcompare y z) as [[| |]|] eqn:E2; try discriminate H2.
  rewrite (SFcompare_Lt_trans _ _ _ E1 E2). reflexivity.
Qed.

Lemma lt_same_l (x y z : number) : SFcompare x y = Some Eq -> lt x z = lt y z.
Proof. intros H. unfold lt, SFltb. rewrite (SFcompare_Eq_left _ _ z H). reflexivity. Qed.

Lemma lt_same_r (x y z : number) : SFcompare x y = Some Eq -> lt z x = lt z y.
Proof. intros H. unfold lt, SFltb. rewrite (SFcompare_Eq_right _ _ z H). reflexivity. Qed.

(** Segment [i] of a version, 0 past its end. *)
Local Abbreviation seg v i := (segment (spec_versionTriple v) i).

Lemma seg_not_NaN (v : jsstring) (i : nat) : seg v i <> NaN.
Proof. rewrite segment_read. apply read_never_NaN. Qed.

Lemma compareLoop_equal (parts1 parts2 : list number) :
  forall remaining i,
    compareLoop parts1 parts2 i remaining = 0%Z <->
    forall k, (k < remaining)%nat ->
      gt (orZero (nth_error parts1 (i + k))) (orZero (nth_error parts2 (i + k))) = false /\
      lt (orZero (nth_error parts1 (i + k))) (orZero (nth_error parts2 (i + k))) = false.
Proof.
  induction remaining as [|r IH]; intros i; simpl.
  - split; [intros _ k Hk; lia | reflexivity].
  - destruct (gt (orZero (nth_error parts1 i)) (orZero (nth_error parts2 i))) eqn:G.
    + split; [discriminate|]. intros H. destruct (H 0%nat ltac:(lia)) as [HG _].
      rewrite Nat.add_0_r in HG. congruence.
    + destruct (lt (orZero (nth_error parts1 i)) (orZero (nth_error parts2 i))) eqn:L.
      * split; [discriminate|]. intros H. destruct (H 0%nat ltac:(lia)) as [_ HL].
        rewrite Nat.add_0_r in HL. congruence.
      * rewrite IH. split.
        -- intros H [|k] Hk; [rewrite Nat.add_0_r; auto|].
           replace (i + S k)%nat with (S i + k)%nat by lia. apply H; lia.
        -- intros H k Hk.
           replace (S i + k)%nat with (i + S k)%nat by lia. apply H; lia.
Qed.

(** The answer is 0 exactly when the two versions agree segment by
    segment. *)
Lemma compareVersions_equal (v1 v2 : jsstring) :
  compareVersions v1 v2 = 0%Z <->
  forall i, SFcompare (seg v1 i) (seg v2 i) = Some Eq.
Proof.
  unfold compareVersions. rewrite compareLoop_equal. simpl. split.
  - intros H i. apply same_iff; try apply seg_not_NaN.
    rewrite !segment_read.
    destruct (Nat.lt_ge_cases i
      (Nat.max (List.length (List.map Number (split 46%N v1)))
               (List.length (List.map Number (split 46%N v2))))) as [Hlt|Hge].
    + apply H; exact Hlt.
    + rewrite 2!read_past_end by lia. split; apply lt_irrefl.
  - intros H k _. rewrite <- !segment_read.
    apply same_iff; try apply seg_not_NaN. apply H.
Qed.

Lemma compareVersions_opp (v1 v2 : jsstring) :
  compareVersions v1 v2 = (- compareVersions v2 v1)%Z.
Proof.
  unfold compareVersions. simpl. rewrite Nat.max_comm. apply compareLoop_antisym.
Qed.

Lemma compareVersions_cases (v1 v2 : jsstring) :
  (compareVersions v1 v2 = -1 \/ compareVersions v1 v2 = 0
   \/ compareVersions v1 v2 = 1)%Z.
Proof. apply compareLoop_range. Qed.

(** Versions that agree segment by segment can stand for each other on
    either side of "greater". *)
Lemma greater_congr (a a' c c' : jsstring) :
  (forall i, SFcompare (seg a i) (seg a' i) = Some Eq) ->
  (forall i, SFcompare (seg c i) (seg c' i) = Some Eq) ->
  spec_greater (spec_versionTriple a) (spec_versionTriple c) ->
  spec_greater (spec_versionTriple a') (spec_versionTriple c').
Proof.
  intros Ha Hc [i [Hpre Hgt]]. exists i. unfold gt in *. split.
  - intros j Hj. destruct (Hpre j Hj) as [HG HL]. split.
    + rewrite <- (lt_same_l _ _ _ (Hc j)), <- (lt_same_r _ _ _ (Ha j)). exact HG.
    + rewrite <- (lt_same_l _ _ _ (Ha j)), <- (lt_same_r _ _ _ (Hc j)). exact HL.
  - rewrite <- (lt_same_l _ _ _ (Hc i)), <- (lt_same_r _ _ _ (Ha i)). exact Hgt.
Qed.

Lemma compareVersions_congr (a a' c c' : jsstring) :
  (forall i, SFcompare (seg a i) (seg a' i) = Some Eq) ->
  (forall i, SFcompare (seg c i) (seg c' i) = Some Eq) ->
  compareVersions a c = compareVersions a' c'.
Proof.
  intros Ha Hc.
  destruct (compareVersions_cases a c) as [H | [H | H]]; rewrite H; symmetry.
  - rewrite compareVersions_opp.
    assert (H' : compareVersions c a = 1%Z) by (rewrite compareVersions_opp; lia).
    apply compareVersions_greater in H'.
    apply (@greater_congr _ _ _ _ Hc Ha), compareVersions_greater in H'. lia.
  - apply compareVersions_equal. intros i.
    pose proof (proj1 (compareVersions_equal a c) H i) as E.
    rewrite <- (SFcompare_Eq_left _ _ _ (Ha i)), <- (SFcompare_Eq_right _ _ _ (Hc i)).
    exact E.
  - apply compareVersions_greater. apply compareVersions_greater in H.
    exact (@greater_congr _ _ _ _ Ha Hc H).
Qed.

Lemma greater_trans (a b c : jsstring) :
  spec_greater (spec_versionTriple a) (spec_versionTriple b) ->
  spec_greater (spec_versionTriple b) (spec_versionTriple c) ->
  spec_greater (spec_versionTriple a) (spec_versionTriple c).
Proof.
  intros [i1 [P1 G1]] [i2 [P2 G2]].
  assert (Hsame : forall j, (j < i1)%nat -> (j < i2)%nat ->
            gt (seg a j) (seg c j) = false /\ lt (seg a j) (seg c j) = false).
  { intros j H1 H2. apply same_iff; try apply seg_not_NaN.
    pose proof (proj1 (same_iff (seg_not_NaN a j) (seg_not_NaN b j)) (P1 j H1)) as E1.
    pose proof (proj1 (same_iff (seg_not_NaN b j) (seg_not_NaN c j)) (P2 j H2)) as E2.
    rewrite (SFcompare_Eq_left _ _ _ E1). exact E2. }
  unfold gt in G1, G2.
  destruct (lt_eq_lt_dec i1 i2) as [[Hlt | Heq] | Hgt].
  - exists i1. split; [intros j Hj; apply Hsame; lia|].
    pose proof (proj1 (same_iff (seg_not_NaN b i1) (seg_not_NaN c i1)) (P2 i1 Hlt)) as E.
    unfold gt. rewrite <- (lt_same_l _ _ _ E). exact G1.
  - subst i2. exists i1. split; [intros j Hj; apply Hsame; lia|].
    unfold gt. exact (lt_trans _ _ _ G2 G1).
  - exists i2. split; [intros j Hj; apply Hsame; lia|].
    pose proof (proj1 (same_iff (seg_not_NaN a i2) (seg_not_NaN b i2)) (P1 i2 Hgt)) as E.
    unfold gt. rewrite (lt_same_r _ _ _ E). exact G2.
Qed.

(** X1. "Newer than" is transitive: when [a] compares greater than [b]
    and [b] greater than [c], then [a] compares greater than [c]. *)
Theorem compareVersions_trans (a b c : jsstring) :
  compareVersions a b = 1%Z ->
  compareVersions b c = 1%Z ->
  compareVersions a c = 1%Z.
Proof.
  rewrite !compareVersions_greater. apply greater_trans.
Qed.

Lemma compareVersions_trans_witness :
  compareVersions (js "2.0") (js "1.2.0") = 1%Z.
Proof.
  apply (@compareVersions_trans (js "2.0") (js "1.10") (js "1.2.0")); reflexivity.
Defined.

(** X2. Two versions that compare equal are interchangeable: each
    compares with any third version as the other does, on either
    side. *)
Theorem compareVersions_equal_interchangeable (a b c : jsstring) :
  compareVersions a b = 0%Z ->
  compareVersions a c = compareVersions b c
  /\ compareVersions c a = compareVersions c b.
Proof.
  intros H. pose proof (proj1 (compareVersions_equal a b) H) as E.
  assert (R : forall i, SFcompare (seg c i) (seg c i) = Some Eq)
    by (intros i; apply SFcompare_refl, seg_not_NaN).
  split; apply compareVersions_congr; assumption.
Qed.

Lemma compareVersions_equal_interchangeable_witness :
  compareVersions (js "1.2") (js "1.10.0") = compareVersions (js "1.2.0.x") (js "1.10.0")
  /\ compareVersions (js "1.10.0") (js "1.2") = compareVersions (js "1.10.0") (js "1.2.0.x").
Proof.
  apply (@compareVersions_equal_interchangeable (js "1.2") (js "1.2.0.x") (js "1.10.0")).
  reflexivity.
Defined.

End VersionOrder.

(** ** Trailing segments *)

Section TrailingSegments.
Import JsString JsNumber AppApi.

Lemma split_nonempty (sep : codeunit) (s : jsstring) : split sep s <> [].
Proof.
  destruct s as [|c s]; simpl; [discriminate|].
  destruct (N.eqb c sep); [discriminate|]. destruct (split sep s); discriminate.
Qed.

(** Splitting goes through an occurrence of the separator. *)
Lemma split_app_sep (sep : codeunit) (a b : jsstring) :
  split sep (a ++ sep :: b) = split sep a ++ split sep b.
Proof.
  induction a as [|c a IH]; simpl.
  - rewrite N.eqb_refl. reflexivity.
  - destruct (N.eqb c sep); rewrite IH; [reflexivity|].
    pose proof (split_nonempty sep a) as Hne.
    destruct (split sep a) as [|piece rest]; [congruence | reflexivity].
Qed.

Lemma split_without_sep (sep : codeunit) (s : jsstring) :
  ~ In sep s -> split sep s = [s].
Proof.
  induction s as [|c s IH]; intros H; simpl; [reflexivity|].
  destruct (N.eqb_spec c sep) as [->|Hc]; [exfalso; apply H; left; reflexivity|].
  rewrite IH by (intros Hin; apply H; right; exact Hin). reflexivity.
Qed.

Lemma segment_app_zero (t : list number) (i : nat) :
  segment (t ++ [zero]) i = segment t i.
Proof.
  unfold segment. destruct (Nat.lt_ge_cases i (List.length t)) as [Hlt|Hge].
  - apply app_nth1. exact Hlt.
  - rewrite app_nth2 by lia. rewrite (nth_overflow t) by lia.
    destruct (i - List.length t)%nat as [|[|k]]; reflexivity.
Qed.

(** X3. A trailing segment that is not a non-zero number is ignored: a
    version followed by ['.'] and such a segment (["0"], the empty
    string, ["beta"], ...) compares with every version as the version
    itself does, on either side. *)
Theorem compareVersions_trailing_segment (v w segm : jsstring) :
  ~ In 46%N segm ->
  JsNumber.truthy (Number segm) = false ->
  compareVersions (v ++ js "." ++ segm) w = compareVersions v w
  /\ compareVersions w (v ++ js "." ++ segm) = compareVersions w v.
Proof.
  intros Hdot Hzero.
  assert (E : forall i, SFcompare (segment (spec_versionTriple (v ++ js "." ++ segm)) i)
                                  (segment (spec_versionTriple v) i) = Some Eq).
  { intros i. change (js "." ++ segm) with (46%N :: segm).
    unfold spec_versionTriple at 1.
    rewrite split_app_sep, (@split_without_sep _ _ Hdot), map_app. simpl List.map at 2.
    rewrite Hzero. fold (spec_versionTriple v). rewrite segment_app_zero.
    apply SFcompare_refl, seg_not_NaN. }
  assert (R : forall i, SFcompare (segment (spec_versionTriple w) i)
                                  (segment (spec_versionTriple w) i) = Some Eq)
    by (intros i; apply SFcompare_refl, seg_not_NaN).
  split; apply compareVersions_congr; assumption.
Qed.

Lemma compareVersions_trailing_segment_witness :
  compareVersions (js "1.2" ++ js "." ++ js "0-rc1") (js "1.2.1") = compareVersions (js "1.2") (js "1.2.1")
  /\ compareVersions (js "1.2.1") (js "1.2" ++ js "." ++ js "0-rc1") = compareVersions (js "1.2.1") (js "1.2").
Proof.
  apply (@compareVersions_trailing_segment (js "1.2") (js "1.2.1") (js "0-rc1")).
  - vm_compute. intros H. repeat (destruct H as [H|H]; [discriminate H|]). exact H.
  - reflexivity.
Defined.

End TrailingSegments.

(** ** More on [checkForUpdates] and its caller *)

Section UpdateCheck.
Import JsString JsNumber AppApi Providers.



(** X5. Every failure of an environment call is passed on unchanged
    and ends the run: a failed version query issues no request, a
    failed request or a non-success status reads no body, a failed
    read of the body returns no [UpdateInfo]; only when all three
    succeed is there one. *)
Theorem checkForUpdates_failures (w : World) :
  match getVersion w with
  | inl e => run (checkForUpdates w) = (inl e, [GetVersion])
  | inr _ =>
      match fetch w LATEST_JSON_URL with
      | inl e => run (checkForUpdates w) = (inl e, [GetVersion; Fetch LATEST_JSON_URL])
      | inr response =>
          match ok response, json response with
          | false, _ =>
              exists message,
                run (checkForUpdates w)
                = (inl (ErrorObject message), [GetVersion; Fetch LATEST_JSON_URL])
          | true, inl e =>
              run (checkForUpdates w)
              = (inl e, [GetVersion; Fetch LATEST_JSON_URL; ReadJson])
          | true, inr _ =>
              exists info,
                run (checkForUpdates w)
                = (inr info, [GetVersion; Fetch LATEST_JSON_URL; ReadJson])
          end
      end
  end.
Proof.
  unfold run, checkForUpdates, bind, await, throw, ret. simpl.
  destruct (getVersion w) as [e|current]; [reflexivity|].
  destruct (fetch w LATEST_JSON_URL) as [e|response]; [reflexivity|]. simpl.
  destruct (ok response); simpl.
  - destruct (json response) as [e|release]; [reflexivity|]. eexists. reflexivity.
  - eexists. reflexivity.
Qed.

(** X6. [checkUpdate] never rejects, whatever the environment does:
    a rejection of [checkForUpdates] becomes one console line, a
    result with [hasUpdate] one notification for the latest version
    with the release URL as its link, any other result nothing; it
    issues the requests of [checkForUpdates] and no more. *)
Theorem checkUpdate_never_rejects (w : World) :
  exists effects,
    fst (run (checkUpdate w)) = inr effects
    /\ snd (run (checkUpdate w)) = snd (run (checkForUpdates w))
    /\ effects
       = match fst (run (checkForUpdates w)) with
         | inl e => [ConsoleError (js "Auto check update failed:") e]
         | inr info =>
             if hasUpdate info
             then [NotificationInfo (latestVersion info) (releaseUrl info)]
             else []
         end.
Proof.
  unfold run, checkUpdate, tryCatch, bind.
  destruct (checkForUpdates w []) as [[e|info] log]; simpl.
  - eexists. repeat split.
  - destruct (hasUpdate info); eexists; repeat split.
Qed.

Lemma plusOne_min (x : Z) :
  (x <= 2 ^ 53)%Z -> plusOne x = Z.min (x + 1) (2 ^ 53).
Proof.
  intros H. unfold plusOne. destruct (Z.ltb_spec x (2 ^ 53)); lia.
Qed.

Lemma onConfigChanges_from (payloads : list jsstring) :
  forall s,
    (0 <= omoConfigRefreshKey s <= 2 ^ 53)%Z ->
    (0 <= claudeProviderRefreshKey s <= 2 ^ 53)%Z ->
    omoConfigRefreshKey (onConfigChanges s payloads)
    = Z.min (omoConfigRefreshKey s + occurrences (js "oh-my-opencode") payloads) (2 ^ 53)
    /\ claudeProviderRefreshKey (onConfigChanges s payloads)
       = Z.min (claudeProviderRefreshKey s + occurrences (js "claude-code") payloads)
               (2 ^ 53).
Proof.
  unfold onConfigChanges, occurrences.
  induction payloads as [|p ps IH]; intros s Ho Hc.
  - simpl. lia.
  - simpl fold_left. simpl filter. unfold onConfigChanged at 2 4.
    destruct (JsString.eqb p (js "oh-my-opencode")) eqn:E1.
    + apply eqb_eq in E1. subst p.
      replace (JsString.eqb (js "oh-my-opencode") (js "claude-code")) with false
        by reflexivity.
      destruct (IH (incrementOmoConfigRefresh s)) as [I1 I2].
      * simpl. rewrite plusOne_min by lia. lia.
      * simpl. lia.
      * rewrite I1, I2. simpl omoConfigRefreshKey. simpl claudeProviderRefreshKey.
        rewrite plusOne_min by lia. simpl List.length. lia.
    + destruct (JsString.eqb p (js "claude-code")) eqn:E2.
      * destruct (IH (incrementClaudeProviderRefresh s)) as [I1 I2].
        -- simpl. lia.
        -- simpl. rewrite plusOne_min by lia. lia.
        -- rewrite I1, I2. simpl omoConfigRefreshKey. simpl claudeProviderRefreshKey.
           rewrite plusOne_min by lia. simpl List.length. lia.
      * apply IH; assumption.
Qed.

(** [plusOne] is [+ 1] of binary64 on the integers it is used on. *)
Example plusOne_binary64 :
  SFadd prec emax (ofDecimal false 41 0) (ofDecimal false 1 0)
  = ofDecimal false (Z.to_N (plusOne 41)) 0
  /\ SFadd prec emax (ofDecimal false (2 ^ 53 - 1) 0) (ofDecimal false 1 0)
     = ofDecimal false (Z.to_N (plusOne (2 ^ 53 - 1))) 0
  /\ SFadd prec emax (ofDecimal false (2 ^ 53) 0) (ofDecimal false 1 0)
     = ofDecimal false (Z.to_N (plusOne (2 ^ 53))) 0.
Proof. repeat split; vm_compute; reflexivity. Qed.

(** X7. After any run of ['config-changed'] events on the initial
    store, each refresh key counts the events of its own kind,
    ['oh-my-opencode'] or ['claude-code'] (up to 2^53, where a number
    stops growing by one); events of the other kind and of any other
    payload leave it alone. *)
Theorem refreshKeys_count (payloads : list jsstring) :
  let s := onConfigChanges initialRefreshState payloads in
  omoConfigRefreshKey s = Z.min (occurrences (js "oh-my-opencode") payloads) (2 ^ 53)
  /\ claudeProviderRefreshKey s
     = Z.min (occurrences (js "claude-code") payloads) (2 ^ 53).
Proof.
  apply (onConfigChanges_from payloads initialRefreshState); simpl; lia.
Qed.

End UpdateCheck.

(** ** More on the default URL *)

Section UrlNormalisation.
Import JsString FetchModelsModal.

(** The default URL is the stripped base followed by a tail that does
    not depend on the base. *)
Lemma calculatedUrl_tail
  (base : jsstring) (apiType : ApiType) (sdkType apiKey : option jsstring) :
  calculatedUrl base apiType sdkType apiKey
  = spec_stripVersionSuffix (replaceTrailingSlash base)
    ++ calculatedUrl [] apiType sdkType apiKey.
Proof.
  unfold calculatedUrl. rewrite baseStripped_spec.
  change (replaceTrailingSlash []) with (@nil codeunit).
  change (endsWith [] (js "/v1beta")) with false.
  change (endsWith [] (js "/v1")) with false. cbv iota.
  destruct apiType; [|reflexivity].
  destruct (sdkIs sdkType sdk_google).
  - destruct apiKey as [[|c k]|]; simpl JsString.truthy; cbv iota;
      rewrite ?app_nil_l, <- ?app_assoc; reflexivity.
  - destruct (sdkIs sdkType sdk_anthropic); reflexivity.
Qed.

Lemma no_trailing_slash_v1 (b : jsstring) : endsWith (b ++ js "/v1") [47%N] = false.
Proof.
  destruct (endsWith (b ++ js "/v1") [47%N]) eqn:E; [|reflexivity].
  apply endsWith_suffix in E. destruct E as [f E].
  apply (f_equal (@rev codeunit)) in E. rewrite !rev_app_distr in E. discriminate E.
Qed.

Lemma no_trailing_slash_v1beta (b : jsstring) :
  endsWith (b ++ js "/v1beta") [47%N] = false.
Proof.
  destruct (endsWith (b ++ js "/v1beta") [47%N]) eqn:E; [|reflexivity].
  apply endsWith_suffix in E. destruct E as [f E].
  apply (f_equal (@rev codeunit)) in E. rewrite !rev_app_distr in E. discriminate E.
Qed.

(** X8. A base URL given with ['/v1'], ['/v1/'], ['/v1beta'] or
    ['/v1beta/'] at its end yields the same default URL in all four
    forms: what precedes the suffix, followed by the path (and key)
    that the API type, the SDK and the key select. *)
Theorem calculatedUrl_suffix_variants
  (b : jsstring) (apiType : ApiType) (sdkType apiKey : option jsstring) :
  let tail := calculatedUrl [] apiType sdkType apiKey in
  calculatedUrl (b ++ js "/v1") apiType sdkType apiKey = b ++ tail
  /\ calculatedUrl (b ++ js "/v1/") apiType sdkType apiKey = b ++ tail
  /\ calculatedUrl (b ++ js "/v1beta") apiType sdkType apiKey = b ++ tail
  /\ calculatedUrl (b ++ js "/v1beta/") apiType sdkType apiKey = b ++ tail.
Proof.
  intros tail. subst tail.
  change (js "/v1/") with (js "/v1" ++ [47%N]).
  change (js "/v1beta/") with (js "/v1beta" ++ [47%N]).
  rewrite !(calculatedUrl_tail (b ++ _)).
  rewrite !app_assoc, !replaceTrailingSlash_front.
  rewrite (@replaceTrailingSlash_other _ (no_trailing_slash_v1 b)).
  rewrite (@replaceTrailingSlash_other _ (no_trailing_slash_v1beta b)).
  rewrite spec_stripVersionSuffix_v1, spec_stripVersionSuffix_v1beta.
  repeat split; reflexivity.
Qed.

(** X9. The API key reaches the URL only for the native Google
    listing: with [openai_compat], with any other SDK, or with an
    empty key, the default URL is the one computed without a key. *)
Theorem calculatedUrl_key_only_google
  (baseUrl : jsstring) (apiType : ApiType) (sdkType apiKey : option jsstring) :
  apiType = openai_compat \/ sdkIs sdkType sdk_google = false \/ apiKey = Some [] ->
  calculatedUrl baseUrl apiType sdkType apiKey
  = calculatedUrl baseUrl apiType sdkType None.
Proof.
  intros [-> | [H | ->]]; unfold calculatedUrl.
  - reflexivity.
  - rewrite H. reflexivity.
  - reflexivity.
Qed.

Lemma calculatedUrl_key_only_google_witness :
  calculatedUrl (js "https://api.x.com") native (Some sdk_anthropic) (Some (js "SECRET"))
  = calculatedUrl (js "https://api.x.com") native (Some sdk_anthropic) None.
Proof.
  apply (@calculatedUrl_key_only_google (js "https://api.x.com") native
           (Some sdk_anthropic) (Some (js "SECRET"))).
  right. left. reflexivity.
Defined.

End UrlNormalisation.

(** ** Traces of the fetch-models component *)

Section ComponentTraces.
Import JsString AppApi FetchModelsModal Traces.

Lemma runEffects_apiType (prev : option (jsstring * bool)) (p : Props) (s : State) :
  apiType (runEffects prev p s) = apiType s.
Proof.
  unfold runEffects, effect_resetOnOpen, effect_syncUrl.
  destruct prev as [[u o]|]; simpl;
    repeat match goal with |- context [if ?b then _ else _] => destruct b end;
    reflexivity.
Qed.

(** After the effects the URL field holds the default, unless no
    dependency changed. *)
Lemma runEffects_customUrl (u0 : jsstring) (o0 : bool) (p : Props) (s : State) :
  customUrl (runEffects (Some (u0, o0)) p s)
  = if JsString.eqb u0 (calculatedUrlOf p s)
    then if negb (Bool.eqb o0 (open p)) && open p
         then calculatedUrlOf p s else customUrl s
    else calculatedUrlOf p s.
Proof.
  unfold runEffects, effect_resetOnOpen, effect_syncUrl, calculatedUrlOf. simpl.
  destruct (JsString.eqb u0 _); simpl.
  - rewrite orb_false_r. destruct (negb (Bool.eqb o0 (open p))); simpl; [|reflexivity].
    destruct (open p); reflexivity.
  - rewrite orb_true_r. destruct (open p); reflexivity.
Qed.

Lemma step_keeps_default (c : Component) (e : Event) :
  isEditUrl e = false ->
  customUrl (state c) = calculatedUrlOf (props c) (state c) ->
  customUrl (state (step c e))
  = calculatedUrlOf (props (step c e)) (state (step c e)).
Proof.
  intros He Hinv. unfold step. simpl props. simpl state.
  assert (Hcalc : calculatedUrlOf (props (handle e c))
                    (runEffects (Some (calculatedUrlOf (props c) (state c), open (props c)))
                                (props (handle e c)) (state (handle e c)))
                  = calculatedUrlOf (props (handle e c)) (state (handle e c))).
  { unfold calculatedUrlOf. rewrite runEffects_apiType. reflexivity. }
  rewrite Hcalc, runEffects_customUrl.
  destruct (JsString.eqb _ _) eqn:E; [|reflexivity].
  destruct (negb _ && _); [reflexivity|].
  apply eqb_eq in E. rewrite <- E.
  destruct e as [p'|t|u| |q|keys| | |outcome]; try discriminate He; simpl;
    try exact Hinv; [reflexivity|].
  destruct outcome; exact Hinv.
Qed.

Lemma mount_default (p : Props) :
  customUrl (state (mount p)) = calculatedUrlOf (props (mount p)) (state (mount p)).
Proof.
  unfold mount, runEffects, effect_resetOnOpen, effect_syncUrl, calculatedUrlOf. simpl.
  destruct (open p); reflexivity.
Qed.

(** X10. As long as the user does not type into the URL field, it
    holds the default URL of the current props and API type: after
    mounting and after every run of events without an edit of the
    URL. *)
Theorem customUrl_default_without_edit (p : Props) (es : list Event) :
  forallb (fun e => negb (isEditUrl e)) es = true ->
  let c := steps (mount p) es in
  customUrl (state c) = calculatedUrlOf (props c) (state c).
Proof.
  intros Hes. simpl. unfold steps.
  generalize (mount_default p). generalize (mount p).
  induction es as [|e es IH]; intros c Hc; simpl; [exact Hc|].
  simpl in Hes. apply andb_true_iff in Hes. destruct Hes as [He Hes].
  apply IH; [exact Hes|]. apply step_keeps_default; [|exact Hc].
  destruct (isEditUrl e); [discriminate He | reflexivity].
Qed.

Lemma customUrl_default_without_edit_witness :
  let c := steps (mount Examples.props_google)
                 [FetchBegins; ChangeApiType openai_compat; ClickReset;
                  ParentRenders MoreExamples.component_closed.(props)] in
  customUrl (state c) = calculatedUrlOf (props c) (state c).
Proof.
  apply (@customUrl_default_without_edit Examples.props_google
           [FetchBegins; ChangeApiType openai_compat; ClickReset;
            ParentRenders MoreExamples.component_closed.(props)]).
  reflexivity.
Defined.

Lemma step_local (c : Component) (e : Event) :
  isLocal e = true ->
  step c e = handle e c /\ customUrl (state (handle e c)) = customUrl (state c)
  /\ props (handle e c) = props c.
Proof.
  intros He. destruct e as [p'|t|u| |q|keys| | |[err|response]]; try discriminate He;
    (split; [apply step_quiet; reflexivity | split; reflexivity]).
Qed.

(** X11. A typed URL survives everything that is not a change of the
    props, of the API type or of the field itself: searching,
    selecting rows, closing the error, and fetches, failed or not,
    leave it in the field. *)
Theorem customUrl_edit_survives_local_events
  (c : Component) (u : jsstring) (es : list Event) :
  forallb isLocal es = true ->
  customUrl (state (steps (step c (EditUrl u)) es)) = u.
Proof.
  intros Hes. unfold steps.
  assert (H0 : customUrl (state (step c (EditUrl u))) = u).
  { rewrite (step_quiet c (EditUrl u)) by reflexivity. reflexivity. }
  revert H0. generalize (step c (EditUrl u)).
  induction es as [|e es IH]; intros c0 H0; simpl; [exact H0|].
  simpl in Hes. apply andb_true_iff in Hes. destruct Hes as [He Hes].
  apply IH; [exact Hes|].
  destruct (step_local c0 e He) as [-> [-> _]]. exact H0.
Qed.

Lemma customUrl_edit_survives_local_events_witness :
  customUrl (state (steps (step MoreExamples.component_fetched (EditUrl (js "http://my/models")))
                          [ChangeSearch (js "gpt"); FetchBegins;
                           FetchSettles (inl (OtherValue (js "refused")));
                           ChangeSelection [js "gpt-4"]; CloseError]))
  = js "http://my/models".
Proof.
  apply (@customUrl_edit_survives_local_events MoreExamples.component_fetched
           (js "http://my/models")
           [ChangeSearch (js "gpt"); FetchBegins;
            FetchSettles (inl (OtherValue (js "refused")));
            ChangeSelection [js "gpt-4"]; CloseError]).
  reflexivity.
Defined.

(** X12. While the modal is open, an event that changes the default
    URL (another base URL, key or SDK from the parent, another API
    type) throws away what was fetched: the list, the selection, the
    error, the search text and the [fetched] flag go back to their
    initial values, and the URL field takes the new default. *)
Theorem default_change_discards_fetch (c : Component) (e : Event) :
  let c' := handle e c in
  open (props c') = true ->
  calculatedUrlOf (props c') (state c') <> calculatedUrlOf (props c) (state c) ->
  state (step c e)
  = {| FetchModelsModal.loading := FetchModelsModal.loading (state c');
       apiType := apiType (state c');
       models := [];
       selectedRowKeys := [];
       error := None;
       fetched := false;
       customUrl := calculatedUrlOf (props c') (state c');
       searchText := [] |}.
Proof.
  intros c' Hopen Hurl. unfold step. fold c'. simpl. unfold runEffects.
  assert (H' : JsString.eqb (calculatedUrlOf (props c) (state c))
                 (calculatedUrlOf (props c') (state c')) = false).
  { apply eqb_neq. congruence. }
  rewrite H'. simpl. rewrite orb_true_r.
  unfold effect_resetOnOpen. rewrite Hopen. reflexivity.
Qed.

Lemma default_change_discards_fetch_witness :
  state (step MoreExamples.component_fetched (ChangeApiType openai_compat))
  = {| FetchModelsModal.loading := false;
       apiType := openai_compat;
       models := [];
       selectedRowKeys := [];
       error := None;
       fetched := false;
       customUrl := js "https://api.x.com/v1/models";
       searchText := [] |}.
Proof.
  apply (@default_change_discards_fetch MoreExamples.component_fetched
           (ChangeApiType openai_compat)).
  - reflexivity.
  - vm_compute. intros H. discriminate H.
Defined.

(** X13. Opening a closed modal starts afresh whatever it held when it
    was closed: empty list and selection, no error, no search text,
    [fetched] false and the default URL of the new props in the URL
    field; only [loading] and the API type carry over. *)
Theorem reopen_resets (c : Component) (p' : Props) :
  open (props c) = false ->
  open p' = true ->
  state (step c (ParentRenders p'))
  = {| FetchModelsModal.loading := FetchModelsModal.loading (state c);
       apiType := apiType (state c);
       models := [];
       selectedRowKeys := [];
       error := None;
       fetched := false;
       customUrl := calculatedUrl (baseUrl p') (apiType (state c)) (sdkType p') (apiKey p');
       searchText := [] |}.
Proof.
  intros Hclosed Hopen. unfold step. simpl. unfold runEffects.
  rewrite Hclosed, Hopen. simpl.
  unfold effect_resetOnOpen. rewrite Hopen.
  destruct (negb (JsString.eqb _ _)); reflexivity.
Qed.

Lemma reopen_resets_witness :
  state (step MoreExamples.component_closed (ParentRenders Examples.props_google))
  = {| FetchModelsModal.loading := false;
       apiType := native;
       models := [];
       selectedRowKeys := [];
       error := None;
       fetched := false;
       customUrl := calculatedUrl (js "https://api.x.com") native (Some sdk_google) None;
       searchText := [] |}.
Proof.
  apply (@reopen_resets MoreExamples.component_closed Examples.props_google);
    reflexivity.
Defined.


End ComponentTraces.

(** ** Refining a search *)

Section SearchRefinement.
Import JsString FetchModelsModal.

Variable toLowerCase : jsstring -> jsstring.
Hypothesis toLowerCase_empty : toLowerCase [] = [].

Lemma includes_trans (s q q' : jsstring) :
  includes s q = true -> includes q q' = true -> includes s q' = true.
Proof.
  rewrite !includes_substring. intros [a [b ->]] [a' [b' ->]].
  exists (a ++ a'), (b' ++ b). rewrite <- !app_assoc. reflexivity.
Qed.

Lemma filter_filter_implied {A} (f g : A -> bool) (l : list A) :
  (forall x, f x = true -> g x = true) ->
  filter f (filter g l) = filter f l.
Proof.
  intros H. induction l as [|x l IH]; simpl; [reflexivity|].
  destruct (g x) eqn:G; simpl.
  - rewrite IH. reflexivity.
  - destruct (f x) eqn:F; [|exact IH]. rewrite (H x F) in G. discriminate.
Qed.

Lemma spec_matchesb_narrow (q q' : jsstring) (m : FetchedModel) :
  includes (toLowerCase q) (toLowerCase q') = true ->
  spec_matchesb toLowerCase q m = true -> spec_matchesb toLowerCase q' m = true.
Proof.
  intros Hq. unfold spec_matchesb. rewrite !existsb_exists.
  intros [f [Hin H]]. exists f. split; [exact Hin|].
  exact (includes_trans _ _ _ H Hq).
Qed.

(** X15. Refining a search narrows it: when the lower-cased new query
    contains the lower-cased old one, searching the full list with the
    new query gives what searching the old result with it gives, and
    every model it finds was in the old result. *)
Theorem filteredModels_refine (models : list FetchedModel) (old new : jsstring) :
  includes (toLowerCase new) (toLowerCase old) = true ->
  filteredModels toLowerCase (filteredModels toLowerCase models old) new
  = filteredModels toLowerCase models new
  /\ (forall m, In m (filteredModels toLowerCase models new) ->
                In m (filteredModels toLowerCase models old)).
Proof.
  intros Hq.
  assert (Heq : filteredModels toLowerCase (filteredModels toLowerCase models old) new
                = filteredModels toLowerCase models new).
  { unfold filteredModels.
    destruct new as [|c new]; simpl negb; cbv iota.
    - rewrite toLowerCase_empty in Hq. apply includes_in_empty in Hq.
      destruct old as [|d old]; simpl negb; cbv iota; [reflexivity|].
      apply forallb_filter_id. apply forallb_forall. intros m _.
      rewrite Hq, includes_empty. reflexivity.
    - destruct old as [|d old]; simpl negb; cbv iota; [reflexivity|].
      apply filter_filter_implied. intros m.
      rewrite !(@filter_predicate_spec _ toLowerCase_empty).
      apply spec_matchesb_narrow. exact Hq. }
  split; [exact Heq|].
  intros m Hm. rewrite <- Heq in Hm.
  unfold filteredModels at 1 in Hm.
  destruct (negb (JsString.truthy new)); [exact Hm|].
  apply filter_In in Hm. tauto.
Qed.

End SearchRefinement.

Lemma filteredModels_refine_witness :
  let models := [Examples.gpt4; Examples.gpt5] in
  FetchModelsModal.filteredModels JsString.asciiLower
    (FetchModelsModal.filteredModels JsString.asciiLower models (JsString.js "GPT"))
    (JsString.js "gpt-5")
  = FetchModelsModal.filteredModels JsString.asciiLower models (JsString.js "gpt-5")
  /\ (forall m,
        In m (FetchModelsModal.filteredModels JsString.asciiLower models (JsString.js "gpt-5")) ->
        In m (FetchModelsModal.filteredModels JsString.asciiLower models (JsString.js "GPT"))).
Proof.
  apply (@filteredModels_refine JsString.asciiLower); reflexivity.
Defined.

(** ** The global configuration form *)

Section GlobalConfigForm.
Import JsString OhMyOpenCodeGlobalConfigModal.

(** X16. [handleSubmit] calls [onSuccess] exactly when the three JSON
    editors are all valid; what it then passes has a non-empty schema
    (the default one when the field is missing or empty) and the
    stored LSP, experimental and other fields untouched; either way it
    ends with [loading] false, and after a call the form is reset. *)
Theorem handleSubmit_gate (c : Modal) :
  (fst (handleSubmit c) = None <->
   lspJsonValid c && experimentalJsonValid c && otherFieldsValid c = false)
  /\ (forall r, fst (handleSubmit c) = Some r ->
        out_schema r <> []
        /\ (schema (form c) = None \/ schema (form c) = Some [] ->
            out_schema r = DEFAULT_SCHEMA)
        /\ out_lsp r = lsp (form c)
        /\ out_experimental r = experimental (form c)
        /\ out_otherFields r = otherFields (form c)
        /\ form (snd (handleSubmit c)) = emptyStore)
  /\ OhMyOpenCodeGlobalConfigModal.loading (snd (handleSubmit c)) = false
  /\ (fst (handleSubmit c) = None -> form (snd (handleSubmit c)) = form c).
Proof.
  unfold handleSubmit.
  destruct (lspJsonValid c), (experimentalJsonValid c), (otherFieldsValid c); simpl;
    (split; [split; [intros H; try discriminate H; reflexivity
                    | intros H; try discriminate H; reflexivity]|]);
    (split; [|split; [reflexivity | intros H; try discriminate H; reflexivity]]);
    intros r Hr; try discriminate Hr.
  injection Hr as <-. unfold submittedValues. simpl.
  split; [|split; [|repeat split; reflexivity]].
  - destruct (schema (form c)) as [[|x v]|]; simpl; discriminate.
  - intros [-> | ->]; reflexivity.
Qed.

Lemma last_cons_default {A} (x d : A) (l : list A) : last (x :: l) d = last l x.
Proof.
  revert x d. induction l as [|y l IH]; intros x d; [reflexivity|].
  change (last (x :: y :: l) d) with (last (y :: l) d).
  rewrite (IH y d), (IH y x). reflexivity.
Qed.

(** One change of the LSP editor: the flag is the reported validity,
    the field holds the reported value, nothing else moves. *)
Lemma onLspChange_once (c : Modal) (value : jsval) (isValid : bool) :
  storedAsIs (value, isValid) ->
  lspJsonValid (onLspChange c (value, isValid)) = isValid
  /\ lsp (form (onLspChange c (value, isValid))) = fieldOf value
  /\ experimentalJsonValid (onLspChange c (value, isValid)) = experimentalJsonValid c
  /\ otherFieldsValid (onLspChange c (value, isValid)) = otherFieldsValid c.
Proof.
  unfold storedAsIs, onLspChange, lspHandler, formItemStores. simpl.
  intros H. split; [reflexivity|]. split; [|split; reflexivity].
  destruct (isValid && isObjectValue value); [reflexivity|].
  destruct H as [H|H]; [discriminate H|]. simpl. rewrite H. reflexivity.
Qed.

Lemma onLspChange_run (edits : list (jsval * bool)) :
  Forall storedAsIs edits ->
  forall c,
    lspJsonValid (fold_left onLspChange edits c)
    = last (List.map snd edits) (lspJsonValid c)
    /\ lsp (form (fold_left onLspChange edits c))
       = last (List.map (fun e => fieldOf (fst e)) edits) (lsp (form c))
    /\ experimentalJsonValid (fold_left onLspChange edits c) = experimentalJsonValid c
    /\ otherFieldsValid (fold_left onLspChange edits c) = otherFieldsValid c.
Proof.
  induction 1 as [|[value isValid] edits Hedit _ IH]; intros c.
  - repeat split; reflexivity.
  - cbn [fold_left].
    destruct (IH (onLspChange c (value, isValid))) as [I1 [I2 [I3 I4]]].
    destruct (onLspChange_once c Hedit) as [F1 [F2 [F3 F4]]].
    rewrite I1, I2, I3, I4, F1, F2, F3, F4.
    cbn [List.map fst snd]. rewrite !last_cons_default.
    repeat split; reflexivity.
Qed.

(** X18. After any run of changes reported by the LSP editor (none of
    them an invalid or non-object value shaped like a DOM event), the
    validity flag is that of the last change and the form holds the
    value of the last change, whatever its validity or type: the form
    item around the editor stores the first argument of every
    [onChange], so the handler's object test decides nothing. With the
    other two editors valid, submit is blocked exactly when the last
    change was invalid, and otherwise passes that last value, also
    when it is a number, a string or [null]. *)
Theorem lsp_editor_run (c : Modal) (edits : list (jsval * bool)) :
  experimentalJsonValid c = true ->
  otherFieldsValid c = true ->
  Forall storedAsIs edits ->
  let c' := fold_left onLspChange edits c in
  lspJsonValid c' = last (List.map snd edits) (lspJsonValid c)
  /\ lsp (form c') = last (List.map (fun e => fieldOf (fst e)) edits) (lsp (form c))
  /\ (fst (handleSubmit c') = None <->
      last (List.map snd edits) (lspJsonValid c) = false)
  /\ (forall r, fst (handleSubmit c') = Some r ->
        out_lsp r = last (List.map (fun e => fieldOf (fst e)) edits) (lsp (form c))).
Proof.
  intros He Ho Hedits c'. subst c'.
  destruct (onLspChange_run Hedits c) as [I1 [I2 [I3 I4]]].
  split; [exact I1|]. split; [exact I2|].
  unfold handleSubmit. rewrite I1, I3, I4, He, Ho.
  destruct (last (List.map snd edits) (lspJsonValid c)); simpl.
  - split; [split; discriminate|]. intros r Hr. injection Hr as <-.
    unfold submittedValues. simpl. exact I2.
  - split; [split; reflexivity|]. intros r Hr. discriminate Hr.
Qed.

Lemma lsp_editor_run_witness :
  let c' := fold_left onLspChange MoreExamples.lsp_edits MoreExamples.modal_opened in
  lspJsonValid c'
  = last (List.map snd MoreExamples.lsp_edits) (lspJsonValid MoreExamples.modal_opened)
  /\ lsp (form c')
     = last (List.map (fun e => fieldOf (fst e)) MoreExamples.lsp_edits)
            (lsp (form MoreExamples.modal_opened))
  /\ (fst (handleSubmit c') = None <->
      last (List.map snd MoreExamples.lsp_edits)
           (lspJsonValid MoreExamples.modal_opened) = false)
  /\ (forall r, fst (handleSubmit c') = Some r ->
        out_lsp r = last (List.map (fun e => fieldOf (fst e)) MoreExamples.lsp_edits)
                         (lsp (form MoreExamples.modal_opened))).
Proof.
  apply (@lsp_editor_run MoreExamples.modal_opened MoreExamples.lsp_edits).
  - reflexivity.
  - reflexivity.
  - repeat constructor; first [left; reflexivity | right; reflexivity].
Defined.

(** A change that does not parse blocks the submit and leaves
    [undefined] in the field; a valid change to the number 5 unblocks
    it, and 5 is what is submitted as [lsp]. A valid object shaped
    like a DOM event is stored whole. *)
Example lsp_editor_invalid_then_valid :
  let typed := fold_left onLspChange (firstn 2 MoreExamples.lsp_edits)
                         MoreExamples.modal_opened in
  fst (handleSubmit typed) = None
  /\ lsp (form typed) = None
  /\ option_map out_lsp
       (fst (handleSubmit (fold_left onLspChange MoreExamples.lsp_edits
                                     MoreExamples.modal_opened)))
     = Some (Some (VNumber (JsNumber.Number (js "5"))))
  /\ lsp (form (onLspChange MoreExamples.modal_opened
                  (VObject [(js "target", VObject [(js "value", VNull)])], true)))
     = Some (VObject [(js "target", VObject [(js "value", VNull)])]).
Proof. repeat split; reflexivity. Qed.

End GlobalConfigForm.
